(** * file-downloader: a shallow embedding of [main.go]

    The program fetches one remote file over HTTP in [NUM_PARTS] byte
    ranges, one goroutine per range, each with up to [MAX_RETRIES]
    attempts, and concatenates the temporary part files into the output
    file.

    The embedding follows [main.go] function by function.  The network,
    the local file system failures, the clock and the library functions
    of package [mime] are the environment: they are fields of the record
    [Env].  The file system is a finite map from files to contents; a
    file is an entry of a directory, and two paths that lead to the same
    entry of the same directory are one file (POSIX files, no links
    among the files of a run).  The goroutines of [downloadFile] touch
    disjoint files and one pair of buffered channels, so a run is
    determined by the order in which the goroutines deliver their
    message: the schedule [sched]. *)

From Stdlib Require Import ZArith List Lia Ascii String.
From stdpp Require Import base option list gmap strings pretty.

Local Open Scope Z_scope.

(** ** Go's [int64]: integers with wrap-around *)

Module Int64.

Definition modulus : Z := 2 ^ 64.
Definition min_int : Z := - 2 ^ 63.
Definition max_int : Z := 2 ^ 63 - 1.

Definition wrap (z : Z) : Z := (z + 2 ^ 63) mod modulus - 2 ^ 63.

Definition in_range (z : Z) : Prop := min_int <= z <= max_int.

Definition add (a b : Z) : Z := wrap (a + b).
Definition sub (a b : Z) : Z := wrap (a - b).
Definition mul (a b : Z) : Z := wrap (a * b).
(** Go's [/] truncates toward zero. *)
Definition quot (a b : Z) : Z := wrap (Z.quot a b).

End Int64.

(** ** Constants of [main.go] *)

Definition NUM_PARTS : nat := 4.
Definition MAX_RETRIES : nat := 3.

(** ** The range planner: the first loop of [downloadFile]

    [ranges[i][0] = start], [ranges[i][1] = end], for the loop index
    [i = 0 .. N-1].  The part count is the constant [NUM_PARTS] in the
    source; it is a parameter here. *)

Definition planRange (N : nat) (totalSize : Z) (i : nat) : Z * Z :=
  let partSize := Int64.quot totalSize (Z.of_nat N) in
  let start := Int64.mul (Z.of_nat i) partSize in
  let end_ :=
    if Nat.eqb i (N - 1)
    then Int64.sub totalSize 1
    else Int64.sub (Int64.add start partSize) 1 in
  (start, end_).

Definition planRanges (N : nat) (totalSize : Z) : list (Z * Z) :=
  map (planRange N totalSize) (seq 0 N).

Definition rangeLen (r : Z * Z) : Z := snd r - fst r + 1.

Definition sumLens (rs : list (Z * Z)) : Z :=
  fold_right (fun r acc => rangeLen r + acc) 0 rs.


(** ** Errors

    Every error of the program is built by [fmt.Errorf] from a format
    string and its arguments; a constructor stands for a format string
    and carries the arguments.  Errors of the libraries (transport, file
    system, [strconv]) are kept as their message. *)

Inductive error : Type :=
  | ErrCreateHead (cause : string)
  | ErrPerformHead (cause : string)
  | ErrNon200 (status : string)
  | ErrMissingContentLength
  | ErrInvalidContentLength (cause : string)
  | ErrPartCreateGet (partNum : nat) (cause : string)
  | ErrPartGet (partNum attempt : nat) (cause : string)
  | ErrPartStatus (partNum : nat) (status : string)
  | ErrPartCreateTemp (partNum : nat) (cause : string)
  | ErrPartWriteTemp (partNum : nat) (cause : string)
  | ErrFileHeaders (cause : error)
  | ErrFileSize (cause : error)
  | ErrCreateOutput (cause : string)
  | ErrOpenTemp (tempFileName cause : string)
  | ErrWriteOutput (tempFileName cause : string).

(** The text of an error: the format strings of [main.go]. *)
Fixpoint errorMessage (e : error) : string :=
  match e with
  | ErrCreateHead c => "failed to create HEAD request: " +:+ c
  | ErrPerformHead c => "failed to perform HEAD request: " +:+ c
  | ErrNon200 s => "server returned non-200 status: " +:+ s
  | ErrMissingContentLength => "Content-Length header is missing"
  | ErrInvalidContentLength c => "invalid Content-Length value: " +:+ c
  | ErrPartCreateGet p c =>
      "part " +:+ pretty p +:+ ": failed to create GET request: " +:+ c
  | ErrPartGet p a c =>
      "part " +:+ pretty p +:+ ": failed to perform GET request after "
        +:+ pretty a +:+ " attempts: " +:+ c
  | ErrPartStatus p s =>
      "part " +:+ pretty p +:+ ": server returned status: " +:+ s
  | ErrPartCreateTemp p c =>
      "part " +:+ pretty p +:+ ": failed to create temp file: " +:+ c
  | ErrPartWriteTemp p c =>
      "part " +:+ pretty p +:+ ": failed to write to temp file: " +:+ c
  | ErrFileHeaders c => "failed to get file headers: " +:+ errorMessage c
  | ErrFileSize c => "failed to get file size: " +:+ errorMessage c
  | ErrCreateOutput c => "failed to create output file: " +:+ c
  | ErrOpenTemp n c => "failed to open temp file " +:+ n +:+ ": " +:+ c
  | ErrWriteOutput n c =>
      "failed to write temp file " +:+ n +:+ " to output: " +:+ c
  end.

(** The part a part error is about. *)
Definition errorPart (e : error) : option nat :=
  match e with
  | ErrPartCreateGet p _ | ErrPartGet p _ _ | ErrPartStatus p _
  | ErrPartCreateTemp p _ | ErrPartWriteTemp p _ => Some p
  | _ => None
  end.

Inductive result (A : Type) : Type :=
  | Ok (a : A)
  | Error (e : error).
Arguments Ok {A} a.
Arguments Error {A} e.

(** ** HTTP *)

Abbreviation byte := Byte.byte.

Record Response : Type := {
  StatusCode : Z;
  Status : string;
  Header : gmap string string;
  Body : list byte
}.

(** The result of [http.DefaultClient.Do]: an error, or a response. *)
Inductive DoResult : Type :=
  | DoErr (cause : string)
  | DoOk (resp : Response).

(** [Header.Get]: the value of the key, the empty string when absent.
    The keys the program asks for are in canonical form already. *)
Definition Get (h : gmap string string) (key : string) : string :=
  default "" (h !! key).

Definition StatusOK : Z := 200.
Definition StatusPartialContent : Z := 206.

(** ** The environment of a run *)

Record Env : Type := {
  (** [http.NewRequest(method, url, nil)]: the error, if any. *)
  NewRequest : string -> string -> option string;
  (** The [k]-th HEAD round trip of the run. *)
  DoHead : nat -> string -> DoResult;
  (** The round trip of goroutine [partNum] at its attempt [attempt],
      for the header [Range: bytes=start-end]. *)
  DoGet : nat -> nat -> Z -> Z -> DoResult;
  (** [os.Create(path)]: the error, if any. *)
  OsCreate : string -> option string;
  (** The directory that the directory part of a path leads to, from
      the working directory of the process: two directory parts that
      lead to the same directory have the same value. *)
  DirOf : string -> string;
  (** [io.Copy] of the response body of a part into its temporary file:
      the number of bytes written before the failure and the error. *)
  BodyCopyFault : nat -> option (nat * string);
  (** [io.Copy] of the temporary file of a part into the output file. *)
  AssembleCopyFault : nat -> option (nat * string);
  (** [mime.ParseMediaType]: media type and parameters, or an error. *)
  ParseMediaType : string -> option (string * gmap string string);
  (** [mime.ExtensionsByType]: the extensions, or an error. *)
  ExtensionsByType : string -> option (list string);
  (** [rand.Int64()]. *)
  RandInt64 : Z
}.

(** ** [strconv.ParseInt(s, 10, 64)] *)

Definition digitValue (c : ascii) : option Z :=
  let n := Z.of_nat (nat_of_ascii c) in
  if (48 <=? n) && (n <=? 57) then Some (n - 48) else None.

Fixpoint parseDigits (s : string) (acc : Z) : option Z :=
  match s with
  | EmptyString => Some acc
  | String c s' =>
      match digitValue c with
      | Some d => parseDigits s' (10 * acc + d)
      | None => None
      end
  end.

(** [inl n] is the value, [inr msg] the error of [strconv]. *)
Definition ParseInt (s : string) : Z + string :=
  match s with
  | EmptyString => inr "invalid syntax"
  | String c s' =>
      let neg := Ascii.eqb c "-" in
      let digits := if neg || Ascii.eqb c "+" then s' else s in
      match digits with
      | EmptyString => inr "invalid syntax"
      | _ =>
          match parseDigits digits 0 with
          | None => inr "invalid syntax"
          | Some un =>
              if negb neg && (2 ^ 63 <=? un) then inr "value out of range"
              else if neg && (2 ^ 63 <? un) then inr "value out of range"
              else inl (if neg then - un else un)
          end
      end
  end.

(** ** [path.Base] *)

Definition isSlash (c : ascii) : bool := Ascii.eqb c "/".

Fixpoint dropSlashes (l : list ascii) : list ascii :=
  match l with
  | c :: l' => if isSlash c then dropSlashes l' else l
  | [] => []
  end.

Fixpoint untilSlash (l : list ascii) : list ascii :=
  match l with
  | c :: l' => if isSlash c then [] else c :: untilSlash l'
  | [] => []
  end.

(** The characters are handled from the end of the path: trailing
    slashes are dropped, then everything up to the last slash. *)
Definition Base (path : string) : string :=
  if String.eqb path "" then "."
  else
    let stripped := dropSlashes (rev (list_ascii_of_string path)) in
    let last := string_of_list_ascii (rev (untilSlash stripped)) in
    if String.eqb last "" then "/" else last.

(** ** [getFileHeaders], [getFileSize] *)

Record ResHeaders : Type := {
  ContentLegnth : string;
  ContentDisposition : string;
  ContentType : string
}.

(** The first HEAD request of a run. *)
Definition getFileHeaders (env : Env) (url : string) : result ResHeaders :=
  match NewRequest env "HEAD" url with
  | Some cause => Error (ErrCreateHead cause)
  | None =>
      match DoHead env 1 url with
      | DoErr cause => Error (ErrPerformHead cause)
      | DoOk resp =>
          if negb (StatusCode resp =? StatusOK)
          then Error (ErrNon200 (Status resp))
          else
            let cl := Get (Header resp) "Content-Length" in
            if String.eqb cl "" then Error ErrMissingContentLength
            else
              let cd := Get (Header resp) "Content-Dispostion" in
              let ct := Get (Header resp) "Content-Type" in
              Ok {| ContentLegnth := cl;
                    ContentDisposition := cd;
                    ContentType := ct |}
      end
  end.

(** The second HEAD request of a run. *)
Definition getFileSize (env : Env) (url : string) : result Z :=
  match NewRequest env "HEAD" url with
  | Some cause => Error (ErrCreateHead cause)
  | None =>
      match DoHead env 2 url with
      | DoErr cause => Error (ErrPerformHead cause)
      | DoOk resp =>
          if negb (StatusCode resp =? StatusOK)
          then Error (ErrNon200 (Status resp))
          else
            let cl := Get (Header resp) "Content-Length" in
            if String.eqb cl "" then Error ErrMissingContentLength
            else
              match ParseInt cl with
              | inr cause => Error (ErrInvalidContentLength cause)
              | inl size => Ok size
              end
      end
  end.

(** ** [detectFileType], [getFileName] *)

(** [strings.Split(s, ";")[0]]: the text before the first semicolon. *)
Fixpoint beforeSemicolon (s : string) : string :=
  match s with
  | EmptyString => EmptyString
  | String c s' =>
      if Ascii.eqb c ";" then EmptyString else String c (beforeSemicolon s')
  end.

Definition detectFileType (env : Env) (contentType : string) : string :=
  let contentType := beforeSemicolon contentType in
  match ExtensionsByType env contentType with
  | None => ""
  | Some (extension :: _) => extension
  | Some [] => ""
  end.

(** The name the last statement of [getFileName] returns. *)
Definition randomName (env : Env) : string :=
  "random" +:+ pretty (RandInt64 env).

(** The second and third statement of [getFileName]. *)
Definition urlFileName (env : Env) (url : string) : string :=
  let filename := Base url in
  if negb (String.eqb filename "") then filename else randomName env.

Definition getFileName (env : Env) (contentDisposition url : string) : string :=
  if negb (String.eqb contentDisposition "") then
    match ParseMediaType env contentDisposition with
    | Some (_, params) =>
        match params !! "filename" with
        | Some filename => filename
        | None => urlFileName env url
        end
    | None => urlFileName env url
    end
  else urlFileName env url.

(** ** The state of a run *)

Inductive Event : Type :=
  (** [http.DefaultClient.Do(req)] of a part, at an attempt, for a range *)
  | EvGet (partNum attempt : nat) (start end_ : Z)
  (** [time.Sleep(time.Second * time.Duration(attempt))] *)
  | EvSleep (partNum seconds : nat)
  | EvCloseBody (partNum : nat)
  | EvCreate (path : string)
  | EvSendErr (e : error)
  | EvSendTemp (tempFileName : string).

(** A file: a directory and the name of an entry in it. *)
Definition File : Type := string * string.

Record State : Type := {
  fs : gmap File (list byte);
  tempFiles : list string;
  errChan : list error;
  trace : list Event
}.

Definition emit (ev : Event) (st : State) : State :=
  {| fs := fs st; tempFiles := tempFiles st; errChan := errChan st;
     trace := trace st ++ [ev] |}.

(** [errChan <- e]: the channel is buffered, the message is queued. *)
Definition sendErr (e : error) (st : State) : State :=
  {| fs := fs st; tempFiles := tempFiles st; errChan := errChan st ++ [e];
     trace := trace st ++ [EvSendErr e] |}.

(** [tempFiles <- name] *)
Definition sendTemp (name : string) (st : State) : State :=
  {| fs := fs st; tempFiles := tempFiles st ++ [name]; errChan := errChan st;
     trace := trace st ++ [EvSendTemp name] |}.

Definition setFS (f : gmap File (list byte)) (st : State) : State :=
  {| fs := f; tempFiles := tempFiles st; errChan := errChan st;
     trace := trace st |}.

(** The characters of a reversed path from its last slash on. *)
Fixpoint fromSlash (l : list ascii) : list ascii :=
  match l with
  | c :: l' => if isSlash c then l else fromSlash l'
  | [] => []
  end.

(** The directory part of a path, up to its last slash, and the name
    after it. *)
Definition splitPath (path : string) : string * string :=
  let reversed := rev (list_ascii_of_string path) in
  (string_of_list_ascii (rev (fromSlash reversed)),
   string_of_list_ascii (rev (untilSlash reversed))).

(** The file that a path leads to. *)
Definition fileOf (env : Env) (path : string) : File :=
  (DirOf env (splitPath path).1, (splitPath path).2).

(** [os.Create(path)] that succeeds: the file exists and is empty. *)
Definition createFile (env : Env) (path : string) (st : State) : State :=
  emit (EvCreate path) (setFS (<[fileOf env path := []]> (fs st)) st).

(** Bytes written at the end of a file that was just created. *)
Definition appendFile (env : Env) (path : string) (data : list byte)
    (st : State) : State :=
  setFS (<[fileOf env path
           := default [] (fs st !! fileOf env path) ++ data]> (fs st)) st.

(** [os.Remove(path)], its error ignored. *)
Definition removeFile (env : Env) (path : string) (st : State) : State :=
  setFS (delete (fileOf env path) (fs st)) st.

(** [fmt.Sprintf("part-%d.tmp", partNum)] *)
Definition tempFileName (partNum : nat) : string :=
  "part-" +:+ pretty partNum +:+ ".tmp".

(** The temporary file of a part. *)
Definition tempFile (env : Env) (partNum : nat) : File :=
  fileOf env (tempFileName partNum).

(** [fmt.Sprintf("bytes=%d-%d", start, end)] *)
Definition rangeHeader (start end_ : Z) : string :=
  "bytes=" +:+ pretty start +:+ "-" +:+ pretty end_.

(** ** [downloadPart] *)

Inductive LoopExit : Type :=
  (** a [return] inside the loop *)
  | LoopReturn
  (** the loop was left, by [break] or by its condition; the variable [resp] *)
  | LoopLeft (resp : option Response).

(** The retry loop [for attempt := 1; attempt <= R; attempt++].
    [remaining] counts the iterations that the condition still allows:
    the loop starts with [remaining = R] and [attempt = 1]. *)
Fixpoint retryLoop (env : Env) (R : nat) (url : string) (start end_ : Z)
    (partNum : nat) (remaining attempt : nat) (resp : option Response)
    (st : State) : LoopExit * State :=
  match remaining with
  | O => (LoopLeft resp, st)
  | S remaining' =>
      match NewRequest env "GET" url with
      | Some cause => (LoopReturn, sendErr (ErrPartCreateGet partNum cause) st)
      | None =>
          let st := emit (EvGet partNum attempt start end_) st in
          match DoGet env partNum attempt start end_ with
          | DoErr cause =>
              if (attempt <? R)%nat then
                retryLoop env R url start end_ partNum remaining' (S attempt)
                  None (emit (EvSleep partNum attempt) st)
              else
                (LoopReturn, sendErr (ErrPartGet partNum attempt cause) st)
          | DoOk r =>
              if negb (StatusCode r =? StatusPartialContent)
                 && negb (StatusCode r =? StatusOK)
              then
                let st := emit (EvCloseBody partNum) st in
                if (attempt <? R)%nat then
                  retryLoop env R url start end_ partNum remaining' (S attempt)
                    (Some r) (emit (EvSleep partNum attempt) st)
                else
                  (LoopReturn, sendErr (ErrPartStatus partNum (Status r)) st)
              else (LoopLeft (Some r), st)
          end
      end
  end.

Inductive Exit : Type :=
  | Returned
  (** a nil pointer dereference *)
  | Panicked.

(** The retry budget is the constant [MAX_RETRIES] in the source; it is
    the parameter [R] here.  The deferred [resp.Body.Close()] runs when
    the function returns. *)
Definition downloadPart (env : Env) (R : nat) (url : string) (start end_ : Z)
    (partNum : nat) (st : State) : Exit * State :=
  match retryLoop env R url start end_ partNum R 1 None st with
  | (LoopReturn, st) => (Returned, st)
  | (LoopLeft None, st) => (Panicked, st)
  | (LoopLeft (Some resp), st) =>
      let name := tempFileName partNum in
      match OsCreate env name with
      | Some cause =>
          (Returned,
           emit (EvCloseBody partNum)
             (sendErr (ErrPartCreateTemp partNum cause) st))
      | None =>
          let st := createFile env name st in
          match BodyCopyFault env partNum with
          | Some (written, cause) =>
              (Returned,
               emit (EvCloseBody partNum)
                 (sendErr (ErrPartWriteTemp partNum cause)
                    (appendFile env name (take written (Body resp)) st)))
          | None =>
              (Returned,
               emit (EvCloseBody partNum)
                 (sendTemp name (appendFile env name (Body resp) st)))
          end
      end
  end.

(** ** [downloadFile] *)

(** The goroutines [go downloadPart(ctx, url, ranges[i][0], ranges[i][1],
    i+1, ...)] run to their end in the order [sched] of part numbers; an
    entry that names no goroutine is passed over.  A panic of a goroutine
    ends the program. *)
Fixpoint runParts (env : Env) (R : nat) (url : string) (ranges : list (Z * Z))
    (sched : list nat) (st : State) : Exit * State :=
  match sched with
  | [] => (Returned, st)
  | partNum :: sched' =>
      match ranges !! (partNum - 1)%nat with
      | Some (start, end_) =>
          if (1 <=? partNum)%nat then
            match downloadPart env R url start end_ partNum st with
            | (Returned, st') => runParts env R url ranges sched' st'
            | (Panicked, st') => (Panicked, st')
            end
          else runParts env R url ranges sched' st
      | None => runParts env R url ranges sched' st
      end
  end.

(** The open output file has the content [content]; its directory
    entry shows it as long as the entry exists. *)
Definition writeOutput (env : Env) (filepath : string)
    (content : list byte) (st : State) : State :=
  match fs st !! fileOf env filepath with
  | Some _ => setFS (<[fileOf env filepath := content]> (fs st)) st
  | None => st
  end.

Inductive AssembleExit : Type :=
  (** the loop ended *)
  | Assembled
  (** a [return] inside the loop *)
  | AssembleFailed (e : error)
  (** [io.Copy] from a file into itself does not come to an end *)
  | AssembleHangs.

(** The last loop of [downloadFile], over the part numbers [1 .. N].
    [written] is what was written to the open output file so far.  The
    output file stays open when [os.Remove] takes its entry away: the
    later writes go to a file without a name.  When the temporary file
    of a part is the output file itself and is not empty, the copy
    reads what it writes, again and again, until a write fails. *)
Fixpoint assemble (env : Env) (filepath : string) (parts : list nat)
    (written : list byte) (st : State) : AssembleExit * State :=
  match parts with
  | [] => (Assembled, st)
  | i :: parts' =>
      let name := tempFileName i in
      match fs st !! fileOf env name with
      | None =>
          (AssembleFailed (ErrOpenTemp name "no such file or directory"), st)
      | Some data =>
          if bool_decide (fileOf env name = fileOf env filepath)
             && negb (bool_decide (data = []))
          then
            match AssembleCopyFault env i with
            | Some (copied, cause) =>
                (AssembleFailed (ErrWriteOutput name cause),
                 writeOutput env filepath
                   (written
                      ++ take copied (concat (replicate (S copied) data)))
                   st)
            | None => (AssembleHangs, st)
            end
          else
            match AssembleCopyFault env i with
            | Some (copied, cause) =>
                (AssembleFailed (ErrWriteOutput name cause),
                 writeOutput env filepath (written ++ take copied data) st)
            | None =>
                assemble env filepath parts' (written ++ data)
                  (removeFile env name
                     (writeOutput env filepath (written ++ data) st))
            end
      end
  end.

Inductive Outcome : Type :=
  (** the value [downloadFile] returns: [nil] or an error *)
  | Done (err : option error)
  (** a goroutine panicked *)
  | Crashed
  (** [downloadFile] does not return *)
  | Hangs.

(** The path of the output file. *)
Definition outputPath (env : Env) (fHeaders : ResHeaders)
    (url filepath : string) : string :=
  filepath +:+ "/" +:+ getFileName env (ContentDisposition fHeaders) url
    +:+ detectFileType env (ContentType fHeaders).

Definition downloadFile (env : Env) (N R : nat) (sched : list nat)
    (url filepath : string) (fs0 : gmap File (list byte))
    : Outcome * State :=
  let st0 := {| fs := fs0; tempFiles := []; errChan := []; trace := [] |} in
  match getFileHeaders env url with
  | Error e => (Done (Some (ErrFileHeaders e)), st0)
  | Ok fHeaders =>
      match getFileSize env url with
      | Error e => (Done (Some (ErrFileSize e)), st0)
      | Ok totalSize =>
          let ranges := planRanges N totalSize in
          match runParts env R url ranges sched st0 with
          | (Panicked, st) => (Crashed, st)
          | (Returned, st) =>
              match errChan st with
              | e :: _ => (Done (Some e), st)
              | [] =>
                  let filepath := outputPath env fHeaders url filepath in
                  match OsCreate env filepath with
                  | Some cause => (Done (Some (ErrCreateOutput cause)), st)
                  | None =>
                      match assemble env filepath (seq 1 N) []
                              (createFile env filepath st) with
                      | (AssembleFailed e, st') => (Done (Some e), st')
                      | (Assembled, st') => (Done None, st')
                      | (AssembleHangs, st') => (Hangs, st')
                      end
                  end
              end
          end
      end
  end.

(** ** Servers

    The bytes [start .. end_] of a content, both bounds included. *)
Definition slice (content : list byte) (start end_ : Z) : list byte :=
  take (Z.to_nat (end_ - start + 1)) (drop (Z.to_nat start) content).

Definition mkResponse (code : Z) (status : string) (body : list byte)
    : Response :=
  {| StatusCode := code; Status := status; Header := ∅; Body := body |}.

(** What a server that honours ranges owes its client: every range
    inside the content is answered by exactly its bytes, as partial
    content. *)
Definition RangeHonoring (content : list byte) (get : Z -> Z -> DoResult)
    : Prop :=
  forall start end_,
    0 <= start <= end_ -> end_ < Z.of_nat (length content) ->
    exists r, get start end_ = DoOk r
              /\ StatusCode r = StatusPartialContent
              /\ Body r = slice content start end_.

(** A server that answers a satisfiable range by its bytes, the end
    clamped to the content, and anything else by [invalid]. *)
Definition serveRange (invalid : DoResult) (content : list byte)
    (start end_ : Z) : DoResult :=
  let size := Z.of_nat (length content) in
  if (0 <=? start) && (start <=? end_) && (start <? size)
  then DoOk (mkResponse StatusPartialContent "206 Partial Content"
               (slice content start (Z.min end_ (size - 1))))
  else invalid.

(** An unsatisfiable or malformed range is refused ([net/http]'s file
    server does so). *)
Definition strictServer (content : list byte) : Z -> Z -> DoResult :=
  serveRange
    (DoOk (mkResponse 416 "416 Requested Range Not Satisfiable" []))
    content.

(** A malformed [Range] header is ignored and the whole content is sent
    (RFC 7233, section 3.1). *)
Definition lenientServer (content : list byte) : Z -> Z -> DoResult :=
  serveRange (DoOk (mkResponse StatusOK "200 OK" content)) content.

(** A server that ignores [Range] altogether. *)
Definition rangeDeafServer (content : list byte) : Z -> Z -> DoResult :=
  fun _ _ => DoOk (mkResponse StatusOK "200 OK" content).

(** The answer to HEAD: the given headers. *)
Definition headResponse (headers : gmap string string) : DoResult :=
  DoOk {| StatusCode := StatusOK; Status := "200 OK";
          Header := headers; Body := [] |}.

(** The directories of a run in a working directory without links: the
    directory part [./] and the empty one lead to the working
    directory, every other directory part to a directory of its own. *)
Definition workingDir (dir : string) : string :=
  if String.eqb dir "./" || String.eqb dir "" then "" else dir.

(** A run without local failures against a server: [headers] answers
    both HEAD requests, [get] every GET, whatever the part and the
    attempt; [parse] is the answer of [mime.ParseMediaType]. *)
Definition serverEnv (headers : gmap string string) (get : Z -> Z -> DoResult)
    (parse : string -> option (string * gmap string string)) : Env :=
  {| NewRequest := fun _ _ => None;
     DoHead := fun _ _ => headResponse headers;
     DoGet := fun _ _ start end_ => get start end_;
     OsCreate := fun _ => None;
     DirOf := workingDir;
     BodyCopyFault := fun _ => None;
     AssembleCopyFault := fun _ => None;
     ParseMediaType := parse;
     ExtensionsByType := fun _ => Some [];
     RandInt64 := 0 |}.

(** The error of [http.DefaultClient.Do] for a request whose context
    was cancelled: the text [Get], the URL between double quotes, and
    [context canceled]. *)
Definition contextCanceled (url : string) : string :=
  "Get " +:+ String "034" (url +:+ String "034" ": context canceled").

(** The same for a context whose deadline has passed. *)
Definition deadlineExceeded (url : string) : string :=
  "Get " +:+ String "034" (url +:+ String "034" ": context deadline exceeded").

(** The context is done from the attempt [k] of every part on: each
    later round trip fails at once with [cause], the error of the
    context in the words of [net/http]. *)
Definition cancelFrom (k : nat) (cause : string) (env : Env) : Env :=
  {| NewRequest := NewRequest env;
     DoHead := DoHead env;
     DoGet := fun partNum attempt start end_ =>
                if (k <=? attempt)%nat then DoErr cause
                else DoGet env partNum attempt start end_;
     OsCreate := OsCreate env;
     DirOf := DirOf env;
     BodyCopyFault := BodyCopyFault env;
     AssembleCopyFault := AssembleCopyFault env;
     ParseMediaType := ParseMediaType env;
     ExtensionsByType := ExtensionsByType env;
     RandInt64 := RandInt64 env |}.

(** A server on which the parts listed in [bad] always get status 500. *)
Definition failingParts (bad : list nat) (env : Env) : Env :=
  {| NewRequest := NewRequest env;
     DoHead := DoHead env;
     DoGet := fun partNum attempt start end_ =>
                if bool_decide (partNum ∈ bad)
                then DoOk (mkResponse 500 "500 Internal Server Error" [])
                else DoGet env partNum attempt start end_;
     OsCreate := OsCreate env;
     DirOf := DirOf env;
     BodyCopyFault := BodyCopyFault env;
     AssembleCopyFault := AssembleCopyFault env;
     ParseMediaType := ParseMediaType env;
     ExtensionsByType := ExtensionsByType env;
     RandInt64 := RandInt64 env |}.

(** ** Vocabulary of the properties *)

(** An attempt that the retry loop does not accept. *)
Definition failedAttempt (d : DoResult) : bool :=
  match d with
  | DoErr _ => true
  | DoOk r =>
      negb (StatusCode r =? StatusPartialContent)
      && negb (StatusCode r =? StatusOK)
  end.

(** The first attempt among [attempt .. attempt + count - 1] that the
    retry loop accepts, and its response. *)
Fixpoint firstAccepted (env : Env) (partNum : nat) (start end_ : Z)
    (attempt count : nat) : option (nat * Response) :=
  match count with
  | O => None
  | S count' =>
      match DoGet env partNum attempt start end_ with
      | DoOk r =>
          if failedAttempt (DoOk r)
          then firstAccepted env partNum start end_ (S attempt) count'
          else Some (attempt, r)
      | DoErr _ => firstAccepted env partNum start end_ (S attempt) count'
      end
  end.

(** The error reported for the last attempt, when it failed. *)
Definition lastError (partNum attempt : nat) (d : DoResult) : error :=
  match d with
  | DoErr cause => ErrPartGet partNum attempt cause
  | DoOk r => ErrPartStatus partNum (Status r)
  end.

Definition isNetEvent (ev : Event) : bool :=
  match ev with
  | EvGet _ _ _ _ | EvSleep _ _ => true
  | _ => false
  end.

(** The network calls and the pauses of a trace, in order. *)
Definition netEvents (tr : list Event) : list Event := filter isNetEvent tr.

(** Attempts [from .. from + count - 1], each followed by a pause of as
    many seconds as its number. *)
Fixpoint attemptsWithPause (partNum : nat) (start end_ : Z)
    (from count : nat) : list Event :=
  match count with
  | O => []
  | S count' =>
      EvGet partNum from start end_ :: EvSleep partNum from
        :: attemptsWithPause partNum start end_ (S from) count'
  end.

(** [R] attempts, a pause of [attempt] seconds before attempt
    [attempt + 1], nothing after the last one. *)
Definition exhaustedSchedule (partNum : nat) (start end_ : Z) (R : nat)
    : list Event :=
  attemptsWithPause partNum start end_ 1 (R - 1)
    ++ [EvGet partNum R start end_].

(** A path with a directory separator. *)
Fixpoint hasSlash (s : string) : bool :=
  match s with
  | EmptyString => false
  | String c s' => isSlash c || hasSlash s'
  end.

Definition emptyState : State :=
  {| fs := ∅; tempFiles := []; errChan := []; trace := [] |}.

(** The state [st] followed by what a run that started in the empty
    state did. *)
Definition addState (st d : State) : State :=
  {| fs := fs d ∪ fs st;
     tempFiles := tempFiles st ++ tempFiles d;
     errChan := errChan st ++ errChan d;
     trace := trace st ++ trace d |}.

(** The error with which a part ends, if it ends with one. *)
Definition partError (env : Env) (R : nat) (url : string)
    (ranges : list (Z * Z)) (partNum : nat) : option error :=
  match ranges !! (partNum - 1)%nat with
  | Some (start, end_) =>
      if (1 <=? partNum)%nat then
        head (errChan (snd (downloadPart env R url start end_ partNum
                              emptyState)))
      else None
  | None => None
  end.

(** The errors of the failing parts, in the order of completion. *)
Definition errorsInOrder (env : Env) (R : nat) (url : string)
    (ranges : list (Z * Z)) (sched : list nat) : list error :=
  omap (partError env R url ranges) sched.

(** The bytes of a content that the range of a part covers. *)
Definition partChunk (N : nat) (content : list byte) (partNum : nat)
    : list byte :=
  let '(start, end_) :=
    planRange N (Z.of_nat (length content)) (partNum - 1) in
  slice content start end_.

(** The number of network calls of a trace. *)
Fixpoint getCount (tr : list Event) : nat :=
  match tr with
  | [] => 0%nat
  | EvGet _ _ _ _ :: tr' => S (getCount tr')
  | _ :: tr' => getCount tr'
  end.

(** The seconds a trace spends in [time.Sleep]. *)
Fixpoint sleepTotal (tr : list Event) : nat :=
  match tr with
  | [] => 0%nat
  | EvSleep _ seconds :: tr' => (seconds + sleepTotal tr')%nat
  | _ :: tr' => sleepTotal tr'
  end.

(** The files a goroutine of [downloadFile] leaves behind, when it is
    the only one that runs. *)
Definition partFS (env : Env) (R : nat) (url : string)
    (ranges : list (Z * Z)) (partNum : nat) : gmap File (list byte) :=
  match ranges !! (partNum - 1)%nat with
  | Some (start, end_) =>
      if (1 <=? partNum)%nat then
        fs (snd (downloadPart env R url start end_ partNum emptyState))
      else ∅
  | None => ∅
  end.

(** The temporary file of a part, after the part ended. *)
Definition partArtifact (env : Env) (R : nat) (url : string)
    (ranges : list (Z * Z)) (partNum : nat) : option (list byte) :=
  partFS env R url ranges partNum !! tempFile env partNum.


(** A text of decimal digits only. *)
Fixpoint allDigits (s : string) : bool :=
  match s with
  | EmptyString => true
  | String c s' =>
      match digitValue c with
      | Some _ => allDigits s'
      | None => false
      end
  end.

(** ** Inputs of the examples *)

Definition abc : list byte := [Byte.x61; Byte.x62; Byte.x63].
Definition abcde : list byte := [Byte.x61; Byte.x62; Byte.x63; Byte.x64; Byte.x65].

Definition noParse : string -> option (string * gmap string string) :=
  fun _ => None.

Definition exampleURL : string := "http://host/dir/f.bin".

(** Three bytes on a server that refuses malformed ranges. *)
Definition smallStrictEnv : Env :=
  serverEnv {[ "Content-Length" := "3" ]} (strictServer abc) noParse.

(** Three bytes on a server that ignores malformed ranges. *)
Definition smallLenientEnv : Env :=
  serverEnv {[ "Content-Length" := "3" ]} (lenientServer abc) noParse.

(** An empty file. *)
Definition emptyLenientEnv : Env :=
  serverEnv {[ "Content-Length" := "0" ]} (lenientServer []) noParse.

Definition emptyStrictEnv : Env :=
  serverEnv {[ "Content-Length" := "0" ]} (strictServer []) noParse.

(** Five bytes on a server that honours ranges. *)
Definition fiveEnv : Env :=
  serverEnv {[ "Content-Length" := "5" ]} (strictServer abcde) noParse.

(** Five bytes on a server that ignores [Range]. *)
Definition deafEnv : Env :=
  serverEnv {[ "Content-Length" := "5" ]} (rangeDeafServer abcde) noParse.

(** Five bytes, sent with a file name in [Content-Disposition]; the
    answer of [mime.ParseMediaType] on that header. *)
Definition dispositionHeader : string := "attachment; filename=a.txt".

Definition parseDisposition (v : string)
    : option (string * gmap string string) :=
  if String.eqb v dispositionHeader
  then Some ("attachment", {[ "filename" := "a.txt" ]})
  else None.

Definition dispositionEnv : Env :=
  serverEnv {[ "Content-Length" := "5";
               "Content-Disposition" := dispositionHeader ]}
    (strictServer abcde) parseDisposition.

(** The first [k] attempts of every part are cut by the network. *)
Definition failFirst (k : nat) (env : Env) : Env :=
  {| NewRequest := NewRequest env;
     DoHead := DoHead env;
     DoGet := fun partNum attempt start end_ =>
                if (attempt <=? k)%nat then DoErr "connection reset by peer"
                else DoGet env partNum attempt start end_;
     OsCreate := OsCreate env;
     DirOf := DirOf env;
     BodyCopyFault := BodyCopyFault env;
     AssembleCopyFault := AssembleCopyFault env;
     ParseMediaType := ParseMediaType env;
     ExtensionsByType := ExtensionsByType env;
     RandInt64 := RandInt64 env |}.

(** The disk is full after [written] bytes of the body of part [bad],
    and after [written] bytes of the copy of part [bad] into the output
    file. *)
Definition diskFull (bad written : nat) (env : Env) : Env :=
  {| NewRequest := NewRequest env;
     DoHead := DoHead env;
     DoGet := DoGet env;
     OsCreate := OsCreate env;
     DirOf := DirOf env;
     BodyCopyFault := fun partNum =>
       if (partNum =? bad)%nat then Some (written, "no space left on device")
       else BodyCopyFault env partNum;
     AssembleCopyFault := fun partNum =>
       if (partNum =? bad)%nat then Some (written, "no space left on device")
       else AssembleCopyFault env partNum;
     ParseMediaType := ParseMediaType env;
     ExtensionsByType := ExtensionsByType env;
     RandInt64 := RandInt64 env |}.

(** [os.Create] fails for the paths under the directory [dir]. *)
Definition missingDir (dir : string) (env : Env) : Env :=
  {| NewRequest := NewRequest env;
     DoHead := DoHead env;
     DoGet := DoGet env;
     OsCreate := fun path =>
       if String.prefix (dir +:+ "/") path
       then Some "no such file or directory"
       else OsCreate env path;
     DirOf := DirOf env;
     BodyCopyFault := BodyCopyFault env;
     AssembleCopyFault := AssembleCopyFault env;
     ParseMediaType := ParseMediaType env;
     ExtensionsByType := ExtensionsByType env;
     RandInt64 := RandInt64 env |}.

(** The copy of the temporary file of part [bad] into the output file
    fails after [written] bytes. *)
Definition outputDiskFull (bad written : nat) (env : Env) : Env :=
  {| NewRequest := NewRequest env;
     DoHead := DoHead env;
     DoGet := DoGet env;
     OsCreate := OsCreate env;
     DirOf := DirOf env;
     BodyCopyFault := BodyCopyFault env;
     AssembleCopyFault := fun partNum =>
       if (partNum =? bad)%nat then Some (written, "no space left on device")
       else AssembleCopyFault env partNum;
     ParseMediaType := ParseMediaType env;
     ExtensionsByType := ExtensionsByType env;
     RandInt64 := RandInt64 env |}.

(** * Properties *)

(** ** [int64] *)

Lemma wrap_id z : Int64.in_range z -> Int64.wrap z = z.
Proof.
  unfold Int64.in_range, Int64.wrap, Int64.modulus, Int64.min_int, Int64.max_int.
  intros H. rewrite Z.mod_small; lia.
Qed.

Lemma wrap_in_range z : Int64.in_range (Int64.wrap z).
Proof.
  unfold Int64.in_range, Int64.wrap, Int64.modulus, Int64.min_int, Int64.max_int.
  pose proof (Z.mod_pos_bound (z + 2 ^ 63) (2 ^ 64) ltac:(lia)). lia.
Qed.

Ltac int64_range :=
  unfold Int64.in_range, Int64.min_int, Int64.max_int in *; lia.

(** ** The range planner *)

(** Closed form of one planned range: no operation wraps around. *)
Lemma planRange_exact N totalSize i :
  (1 <= N)%nat -> (i < N)%nat -> 0 <= totalSize <= Int64.max_int ->
  planRange N totalSize i =
    (Z.of_nat i * (totalSize / Z.of_nat N),
     if Nat.eqb i (N - 1) then totalSize - 1
     else (Z.of_nat i + 1) * (totalSize / Z.of_nat N) - 1).
Proof.
  intros HN Hi Hsz.
  unfold planRange, Int64.quot, Int64.mul, Int64.add, Int64.sub.
  rewrite Z.quot_div_nonneg by lia.
  set (b := totalSize / Z.of_nat N).
  assert (Hb0 : 0 <= b) by (apply Z.div_pos; lia).
  assert (HbN : Z.of_nat N * b <= totalSize) by (apply Z.mul_div_le; lia).
  assert (Hib : Z.of_nat i * b + b <= totalSize) by nia.
  assert (Hib0 : 0 <= Z.of_nat i * b) by nia.
  rewrite (wrap_id b) by int64_range.
  rewrite (wrap_id (Z.of_nat i * b)) by int64_range.
  rewrite (wrap_id (Z.of_nat i * b + b)) by int64_range.
  f_equal. destruct (Nat.eqb i (N - 1)).
  - apply wrap_id. int64_range.
  - rewrite wrap_id by int64_range. lia.
Qed.

Lemma planRanges_length N totalSize : length (planRanges N totalSize) = N.
Proof. unfold planRanges. by rewrite length_map, length_seq. Qed.

Lemma planRanges_lookup N totalSize i :
  (i < N)%nat -> planRanges N totalSize !! i = Some (planRange N totalSize i).
Proof.
  intros Hi. unfold planRanges.
  rewrite list_lookup_fmap, lookup_seq_lt by done. done.
Qed.

Lemma planRanges_lookup_inv N totalSize i r :
  planRanges N totalSize !! i = Some r ->
  (i < N)%nat /\ r = planRange N totalSize i.
Proof.
  intros H. assert (Hi : (i < N)%nat).
  { apply lookup_lt_Some in H. by rewrite planRanges_length in H. }
  rewrite planRanges_lookup in H by done. split; congruence.
Qed.

Lemma sumLens_app l1 l2 : sumLens (l1 ++ l2) = sumLens l1 + sumLens l2.
Proof. induction l1 as [|r l1 IH]; simpl; [done | rewrite IH; lia]. Qed.

(** Ranges of the same length [b] add up to [b] times their number. *)
Lemma sumLens_uniform (f : nat -> Z * Z) b l :
  (forall i, i ∈ l -> rangeLen (f i) = b) ->
  sumLens (map f l) = Z.of_nat (length l) * b.
Proof.
  induction l as [|i l IH]; intros H; simpl sumLens.
  - simpl. lia.
  - rewrite H by set_solver. rewrite IH by set_solver.
    simpl length. lia.
Qed.

(** C2. Range planning.  For a size [totalSize > 0] and a part count
    [N >= 1], with [base = totalSize / N]: there are [N] ranges; range
    [i < N-1] is [[i*base, (i+1)*base - 1]]; the last range is
    [[(N-1)*base, totalSize - 1]]; the ranges start at 0, end at
    [totalSize - 1], each range ends right before the next one starts,
    no two of them overlap, and their lengths add up to [totalSize]. *)
Theorem range_planning (N : nat) (totalSize : Z) :
  (1 <= N)%nat -> 0 < totalSize <= Int64.max_int ->
  let base := totalSize / Z.of_nat N in
  let rs := planRanges N totalSize in
  length rs = N
  /\ (forall i, (i < N - 1)%nat ->
        rs !! i = Some (Z.of_nat i * base, (Z.of_nat i + 1) * base - 1))
  /\ rs !! (N - 1)%nat = Some ((Z.of_nat N - 1) * base, totalSize - 1)
  /\ fst <$> head rs = Some 0
  /\ snd <$> last rs = Some (totalSize - 1)
  /\ (forall i r r',
        rs !! i = Some r -> rs !! S i = Some r' -> snd r + 1 = fst r')
  /\ (forall i j r r', (i < j)%nat ->
        rs !! i = Some r -> rs !! j = Some r' -> snd r < fst r')
  /\ sumLens rs = totalSize.
Proof.
  intros HN Hsz base rs.
  assert (Hsz' : 0 <= totalSize <= Int64.max_int) by lia.
  assert (Hb0 : 0 <= base) by (apply Z.div_pos; lia).
  assert (HbN : Z.of_nat N * base <= totalSize) by (apply Z.mul_div_le; lia).
  assert (Hinner : forall i, (i < N - 1)%nat ->
            planRange N totalSize i
            = (Z.of_nat i * base, (Z.of_nat i + 1) * base - 1)).
  { intros i Hi. rewrite planRange_exact by lia.
    destruct (Nat.eqb_spec i (N - 1)); [lia | done]. }
  assert (Hlast : planRange N totalSize (N - 1)
                  = ((Z.of_nat N - 1) * base, totalSize - 1)).
  { rewrite planRange_exact by lia. rewrite Nat.eqb_refl.
    f_equal. rewrite Nat2Z.inj_sub by lia. done. }
  assert (Hstart : forall i, (i < N)%nat ->
            fst (planRange N totalSize i) = Z.of_nat i * base).
  { intros i Hi. by rewrite planRange_exact by lia. }
  repeat split.
  - apply planRanges_length.
  - intros i Hi. subst rs. rewrite planRanges_lookup by lia. by rewrite Hinner.
  - subst rs. rewrite planRanges_lookup by lia. by rewrite Hlast.
  - subst rs. rewrite head_lookup, planRanges_lookup by lia.
    rewrite planRange_exact by lia. done.
  - subst rs. rewrite last_lookup, planRanges_length.
    replace (Nat.pred N) with (N - 1)%nat by lia.
    rewrite planRanges_lookup by lia. by rewrite Hlast.
  - intros i r r' Hr Hr'.
    apply planRanges_lookup_inv in Hr as [Hi ->].
    apply planRanges_lookup_inv in Hr' as [Hi' ->].
    rewrite (Hinner i), (Hstart (S i)) by lia. simpl. lia.
  - intros i j r r' Hij Hr Hr'.
    apply planRanges_lookup_inv in Hr as [Hi ->].
    apply planRanges_lookup_inv in Hr' as [Hj ->].
    rewrite (Hinner i), (Hstart j) by lia. simpl. nia.
  - subst rs. unfold planRanges.
    replace N with ((N - 1) + 1)%nat at 2 by lia.
    rewrite seq_app, map_app, sumLens_app. simpl seq. simpl map.
    rewrite (sumLens_uniform _ base).
    + rewrite length_seq. unfold sumLens at 1. simpl fold_right.
      rewrite Hlast. unfold rangeLen. simpl.
      rewrite Nat2Z.inj_sub by lia. lia.
    + intros i Hi. apply elem_of_seq in Hi.
      rewrite Hinner by lia. unfold rangeLen. simpl. lia.
Qed.

(** The plan of the example of the specification. *)
Lemma range_planning_witness :
  planRanges NUM_PARTS 101 = [(0, 24); (25, 49); (50, 74); (75, 100)]
  /\ sumLens (planRanges NUM_PARTS 101) = 101.
Proof.
  split; [reflexivity|].
  apply (range_planning NUM_PARTS 101); [unfold NUM_PARTS; lia|].
  unfold Int64.max_int. lia.
Defined.

(** ** The retry loop *)

Section RetryLoop.

Variables (env : Env) (R : nat) (url : string) (start end_ : Z) (partNum : nat).

(** Whatever the answers of the network, an iteration that the loop
    condition allows ends the function with one error on [errChan], or
    leaves the loop with an accepted response and no message.  The file
    system and [tempFiles] are not touched. *)
Lemma retryLoop_cases remaining attempt resp st :
  (1 <= remaining)%nat -> (attempt + remaining = R + 1)%nat ->
  let res := retryLoop env R url start end_ partNum remaining attempt resp st in
  fs res.2 = fs st /\ tempFiles res.2 = tempFiles st /\
  ((exists err tr, res.1 = LoopReturn
       /\ errChan res.2 = errChan st ++ [err]
       /\ trace res.2 = trace st ++ tr ++ [EvSendErr err]
       /\ errorPart err = Some partNum)
   \/ (exists r a tr, res.1 = LoopLeft (Some r)
       /\ errChan res.2 = errChan st
       /\ trace res.2 = trace st ++ tr
       /\ (attempt <= a <= R)%nat
       /\ DoGet env partNum a start end_ = DoOk r
       /\ failedAttempt (DoOk r) = false)).
Proof.
  revert attempt resp st.
  induction remaining as [|remaining' IH]; intros attempt resp st Hrem Hsum;
    [lia|].
  cbn [retryLoop].
  destruct (NewRequest env "GET" url) as [cause|].
  { cbn. repeat split; try done. left.
    exists (ErrPartCreateGet partNum cause), []. by repeat split. }
  destruct (DoGet env partNum attempt start end_) as [cause|r] eqn:Hget.
  - destruct (Nat.ltb_spec attempt R) as [Hlt|Hge].
    + specialize (IH (S attempt) None
        (emit (EvSleep partNum attempt)
           (emit (EvGet partNum attempt start end_) st))
        ltac:(lia) ltac:(lia)).
      cbn zeta in IH. destruct IH as (Hfs & Htmp & IH).
      split; [by rewrite Hfs|]. split; [by rewrite Htmp|].
      destruct IH as [(err & tr & H1 & H2 & H3 & H4)
                     |(r & a & tr & H1 & H2 & H3 & H4 & H5 & H6)].
      * left. exists err, ([EvGet partNum attempt start end_;
                            EvSleep partNum attempt] ++ tr).
        repeat split; try done. rewrite H3. cbn. by rewrite <- !app_assoc.
      * right. exists r, a, ([EvGet partNum attempt start end_;
                              EvSleep partNum attempt] ++ tr).
        repeat split; try done; try lia.
        rewrite H3. cbn. by rewrite <- !app_assoc.
    + cbn. repeat split; try done. left.
      exists (ErrPartGet partNum attempt cause),
             [EvGet partNum attempt start end_].
      repeat split; try done. by rewrite <- !app_assoc.
  - destruct (negb (StatusCode r =? StatusPartialContent)
              && negb (StatusCode r =? StatusOK)) eqn:Hst.
    + destruct (Nat.ltb_spec attempt R) as [Hlt|Hge].
      * specialize (IH (S attempt) (Some r)
          (emit (EvSleep partNum attempt)
             (emit (EvCloseBody partNum)
                (emit (EvGet partNum attempt start end_) st)))
          ltac:(lia) ltac:(lia)).
        cbn zeta in IH. destruct IH as (Hfs & Htmp & IH).
        split; [by rewrite Hfs|]. split; [by rewrite Htmp|].
        destruct IH as [(err & tr & H1 & H2 & H3 & H4)
                       |(r' & a & tr & H1 & H2 & H3 & H4 & H5 & H6)].
        -- left. exists err, ([EvGet partNum attempt start end_;
                               EvCloseBody partNum;
                               EvSleep partNum attempt] ++ tr).
           repeat split; try done. rewrite H3. cbn. by rewrite <- !app_assoc.
        -- right. exists r', a, ([EvGet partNum attempt start end_;
                                  EvCloseBody partNum;
                                  EvSleep partNum attempt] ++ tr).
           repeat split; try done; try lia.
           rewrite H3. cbn. by rewrite <- !app_assoc.
      * cbn. repeat split; try done. left.
        exists (ErrPartStatus partNum (Status r)),
               [EvGet partNum attempt start end_; EvCloseBody partNum].
        repeat split; try done. by rewrite <- !app_assoc.
    + cbn. repeat split; try done. right.
      exists r, attempt, [EvGet partNum attempt start end_].
      repeat split; try done; lia.
Qed.

(** When every attempt from [attempt] on fails, the loop makes all the
    attempts up to [R], pauses [a] seconds after attempt [a < R], and
    ends with the error of attempt [R]. *)
Lemma retryLoop_exhausted remaining attempt resp st :
  (1 <= remaining)%nat -> (attempt + remaining = R + 1)%nat ->
  NewRequest env "GET" url = None ->
  (forall a, (attempt <= a <= R)%nat ->
     failedAttempt (DoGet env partNum a start end_) = true) ->
  let res := retryLoop env R url start end_ partNum remaining attempt resp st in
  let err := lastError partNum R (DoGet env partNum R start end_) in
  res.1 = LoopReturn
  /\ fs res.2 = fs st /\ tempFiles res.2 = tempFiles st
  /\ errChan res.2 = errChan st ++ [err]
  /\ exists tr, trace res.2 = trace st ++ tr ++ [EvSendErr err]
       /\ netEvents tr
          = attemptsWithPause partNum start end_ attempt (remaining - 1)
              ++ [EvGet partNum R start end_].
Proof.
  revert attempt resp st.
  induction remaining as [|remaining' IH];
    intros attempt resp st Hrem Hsum Hreq Hfail; [lia|].
  cbn [retryLoop]. rewrite Hreq.
  pose proof (Hfail attempt ltac:(lia)) as Hnow.
  destruct (Nat.ltb_spec attempt R) as [Hlt|Hge].
  - assert (Hstep : forall resp' st1 mid,
      fs st1 = fs st -> tempFiles st1 = tempFiles st ->
      errChan st1 = errChan st -> trace st1 = trace st ++ mid ->
      netEvents mid = [EvGet partNum attempt start end_;
                       EvSleep partNum attempt] ->
      let res := retryLoop env R url start end_ partNum remaining'
                   (S attempt) resp' st1 in
      let err := lastError partNum R (DoGet env partNum R start end_) in
      res.1 = LoopReturn
      /\ fs res.2 = fs st /\ tempFiles res.2 = tempFiles st
      /\ errChan res.2 = errChan st ++ [err]
      /\ exists tr, trace res.2 = trace st ++ tr ++ [EvSendErr err]
           /\ netEvents tr
              = attemptsWithPause partNum start end_ attempt
                  (S remaining' - 1)
                  ++ [EvGet partNum R start end_]).
    { intros resp' st1 mid Hfs Htmp Herr Htr Hmid res err.
      destruct (IH (S attempt) resp' st1 ltac:(lia) ltac:(lia) Hreq)
        as (H1 & H2 & H3 & H4 & tr & H5 & H6).
      { intros a Ha. apply Hfail. lia. }
      fold res in H1, H2, H3, H4, H5.
      split; [done|]. split; [congruence|]. split; [congruence|].
      split; [by rewrite H4, Herr|].
      exists (mid ++ tr). split.
      - rewrite H5, Htr. by rewrite <- !app_assoc.
      - unfold netEvents in *. rewrite filter_app, Hmid, H6.
        replace (S remaining' - 1)%nat with (S (remaining' - 1)) by lia.
        done. }
    destruct (DoGet env partNum attempt start end_) as [cause|r].
    + apply (Hstep None _ [EvGet partNum attempt start end_;
                           EvSleep partNum attempt]); try done.
      cbn. by rewrite <- !app_assoc.
    + cbn in Hnow. rewrite Hnow.
      apply (Hstep (Some r) _ [EvGet partNum attempt start end_;
                               EvCloseBody partNum;
                               EvSleep partNum attempt]); try done.
      cbn. by rewrite <- !app_assoc.
  - assert (attempt = R) as -> by lia.
    assert (remaining' = 0)%nat as -> by lia.
    destruct (DoGet env partNum R start end_) as [cause|r].
    + cbn. repeat split; try done.
      exists [EvGet partNum R start end_]. split; [|done].
      by rewrite <- !app_assoc.
    + cbn in Hnow. rewrite Hnow. cbn. repeat split; try done.
      exists [EvGet partNum R start end_; EvCloseBody partNum].
      split; [|done]. by rewrite <- !app_assoc.
Qed.

End RetryLoop.

(** ** [downloadPart] *)

Lemma appendFile_created env name data st :
  fs (appendFile env name data (createFile env name st))
  = <[fileOf env name := data]> (fs st).
Proof.
  unfold appendFile, createFile. cbn.
  rewrite lookup_insert_eq. cbn. by rewrite insert_insert_eq.
Qed.

(** With a budget of at least one attempt, a call either reports one
    error about its part, or accepts the response of one of its attempts
    and stores the body of that response, whole, in its temporary file. *)
Lemma downloadPart_cases env R url start end_ partNum st :
  (1 <= R)%nat ->
  let res := downloadPart env R url start end_ partNum st in
  res.1 = Returned
  /\ ((exists err, errChan res.2 = errChan st ++ [err]
         /\ tempFiles res.2 = tempFiles st
         /\ errorPart err = Some partNum
         /\ (forall file, file <> tempFile env partNum ->
               fs res.2 !! file = fs st !! file))
      \/ (exists r a, (1 <= a <= R)%nat
         /\ DoGet env partNum a start end_ = DoOk r
         /\ failedAttempt (DoOk r) = false
         /\ OsCreate env (tempFileName partNum) = None
         /\ BodyCopyFault env partNum = None
         /\ errChan res.2 = errChan st
         /\ tempFiles res.2 = tempFiles st ++ [tempFileName partNum]
         /\ fs res.2 = <[tempFile env partNum := Body r]> (fs st))).
Proof.
  intros HR res. subst res. unfold downloadPart.
  pose proof (retryLoop_cases env R url start end_ partNum R 1 None st
                HR ltac:(lia)) as (Hfs & Htmp & Hloop).
  cbn zeta in Hloop.
  destruct (retryLoop env R url start end_ partNum R 1 None st)
    as [ex st1].
  cbn [fst snd] in *.
  destruct Hloop as [(err & tr & -> & H2 & H3 & H4)
                    |(r & a & tr & -> & H2 & H3 & H4 & H5 & H6)].
  - cbn [fst snd]. split; [done|]. left. exists err. repeat split; try done.
    intros path _. by rewrite Hfs.
  - cbn iota beta.
    destruct (OsCreate env (tempFileName partNum)) as [cause|] eqn:Hcreate.
    { split; [done|]. left. exists (ErrPartCreateTemp partNum cause).
      cbn [fst snd]. repeat split; cbn; congruence. }
    destruct (BodyCopyFault env partNum) as [[written cause]|] eqn:Hcopy.
    { split; [done|]. left. exists (ErrPartWriteTemp partNum cause).
      cbn [fst snd]. repeat split.
      - cbn. congruence.
      - cbn. congruence.
      - intros path Hpath.
        change (fs (appendFile env (tempFileName partNum) (take written (Body r))
                      (createFile env (tempFileName partNum) st1)) !! path
                = fs st !! path).
        rewrite appendFile_created, lookup_insert_ne by done. by rewrite Hfs. }
    split; [done|]. right. exists r, a. repeat split; try done; try lia.
    + cbn -[tempFileName]. congruence.
    + change (fs (appendFile env (tempFileName partNum) (Body r)
                    (createFile env (tempFileName partNum) st1))
              = <[tempFile env partNum:=Body r]> (fs st)).
      by rewrite appendFile_created, Hfs.
Qed.

(** Without any attempt allowed, the loop is skipped, [resp] is still
    [nil] and the deferred close dereferences it. *)
Lemma downloadPart_zero_budget env url start end_ partNum st :
  (downloadPart env 0 url start end_ partNum st).1 = Panicked.
Proof. reflexivity. Qed.

(** C10. With a retry budget of at least one attempt, a call of
    [downloadPart] returns and sends exactly one message in total: the
    name of its temporary file on [tempFiles], or one error on [errChan];
    and the retry loop is never left with a nil response, so that the
    deferred close of the response body has a response. *)
Theorem downloadPart_one_message env R url start end_ partNum st :
  (1 <= R)%nat ->
  let res := downloadPart env R url start end_ partNum st in
  res.1 = Returned
  /\ (forall st', retryLoop env R url start end_ partNum R 1 None st
                  <> (LoopLeft None, st'))
  /\ ((tempFiles res.2 = tempFiles st ++ [tempFileName partNum]
         /\ errChan res.2 = errChan st)
      \/ (exists err, errChan res.2 = errChan st ++ [err]
            /\ tempFiles res.2 = tempFiles st))
  /\ (length (tempFiles res.2) + length (errChan res.2)
      = length (tempFiles st) + length (errChan st) + 1)%nat.
Proof.
  intros HR res.
  pose proof (downloadPart_cases env R url start end_ partNum st HR)
    as [Hret Hcases].
  fold res in Hret, Hcases.
  split; [done|]. split.
  - intros st' Hloop. subst res. unfold downloadPart in Hret.
    rewrite Hloop in Hret. done.
  - destruct Hcases as [(err & H1 & H2 & _)
                       |(r & a & _ & _ & _ & _ & _ & H1 & H2 & _)].
    + split; [right; by exists err|].
      rewrite H1, H2, length_app. simpl. lia.
    + split; [by left|].
      rewrite H1, H2, length_app. simpl. lia.
Qed.

(** The budget of the program, a part of the five-byte example. *)
Lemma downloadPart_one_message_witness :
  (1 <= MAX_RETRIES)%nat
  /\ (downloadPart fiveEnv MAX_RETRIES exampleURL 0 0 1 emptyState).1
     = Returned.
Proof.
  split; [unfold MAX_RETRIES; lia|].
  apply (downloadPart_one_message fiveEnv MAX_RETRIES exampleURL 0 0 1
           emptyState).
  unfold MAX_RETRIES; lia.
Defined.

(** C6. Retry exhaustion.  When the request can be built and every
    attempt [1 .. R] fails, by a transport error or by a status other
    than 200 and 206, the call makes exactly the attempts [1 .. R], in
    order, with a pause of [a] seconds between attempt [a] and attempt
    [a + 1]; it then sends one error, about its part and with the error
    of attempt [R]; that message is the last thing it does; no temporary
    file is written. *)
Theorem retry_exhaustion env R url start end_ partNum st :
  (1 <= R)%nat ->
  NewRequest env "GET" url = None ->
  (forall a, (1 <= a <= R)%nat ->
     failedAttempt (DoGet env partNum a start end_) = true) ->
  let res := downloadPart env R url start end_ partNum st in
  let err := lastError partNum R (DoGet env partNum R start end_) in
  res.1 = Returned
  /\ errorPart err = Some partNum
  /\ errChan res.2 = errChan st ++ [err]
  /\ tempFiles res.2 = tempFiles st
  /\ fs res.2 = fs st
  /\ exists tr, trace res.2 = trace st ++ tr ++ [EvSendErr err]
       /\ netEvents tr = exhaustedSchedule partNum start end_ R.
Proof.
  intros HR Hreq Hfail res err.
  pose proof (retryLoop_exhausted env R url start end_ partNum R 1 None st
                HR ltac:(lia) Hreq Hfail)
    as (H1 & H2 & H3 & H4 & tr & H5 & H6).
  cbn zeta in *. subst res. unfold downloadPart.
  destruct (retryLoop env R url start end_ partNum R 1 None st)
    as [ex st1].
  cbn [fst snd] in *. subst ex.
  repeat split; try done.
  - subst err. by destruct (DoGet env partNum R start end_).
  - by exists tr.
Qed.

(** A part of the five-byte example whose three attempts all get status
    500. *)
Lemma retry_exhaustion_witness :
  let res := downloadPart (failingParts [1%nat] fiveEnv) MAX_RETRIES
               exampleURL 0 0 1 emptyState in
  res.1 = Returned
  /\ errChan res.2 = [ErrPartStatus 1 "500 Internal Server Error"]
  /\ exists tr, trace res.2
                = tr ++ [EvSendErr (ErrPartStatus 1 "500 Internal Server Error")]
       /\ netEvents tr = [EvGet 1 1 0 0; EvSleep 1 1; EvGet 1 2 0 0;
                          EvSleep 1 2; EvGet 1 3 0 0].
Proof.
  destruct (retry_exhaustion (failingParts [1%nat] fiveEnv) MAX_RETRIES
              exampleURL 0 0 1 emptyState)
    as (H1 & _ & H3 & _ & _ & tr & H5 & H6).
  - unfold MAX_RETRIES; lia.
  - reflexivity.
  - intros a _. reflexivity.
  - split; [exact H1|]. split; [exact H3|]. exists tr. split; [exact H5|exact H6].
Defined.

(** ** The retry loop: an accepted attempt *)

Section Retries.

Variables (env : Env) (R : nat) (url : string) (start end_ : Z) (partNum : nat).

(** When the attempts before [k] fail and attempt [k] is accepted, the
    loop is left at attempt [k] with that response. *)
Lemma retryLoop_accepts remaining attempt resp st k r :
  (attempt + remaining = R + 1)%nat -> (attempt <= k <= R)%nat ->
  NewRequest env "GET" url = None ->
  (forall a, (attempt <= a < k)%nat ->
     failedAttempt (DoGet env partNum a start end_) = true) ->
  DoGet env partNum k start end_ = DoOk r ->
  failedAttempt (DoOk r) = false ->
  let res := retryLoop env R url start end_ partNum remaining attempt resp st in
  res.1 = LoopLeft (Some r)
  /\ fs res.2 = fs st /\ tempFiles res.2 = tempFiles st
  /\ errChan res.2 = errChan st
  /\ exists tr, trace res.2 = trace st ++ tr
       /\ netEvents tr
          = attemptsWithPause partNum start end_ attempt (k - attempt)
              ++ [EvGet partNum k start end_].
Proof.
  revert attempt resp st.
  induction remaining as [|remaining' IH];
    intros attempt resp st Hsum Hk Hreq Hfail Hget Hok; [lia|].
  cbn [retryLoop]. rewrite Hreq.
  destruct (decide (attempt = k)) as [->|Hne].
  - rewrite Hget. cbn in Hok. rewrite Hok. cbn [fst snd].
    repeat split; try done.
    exists [EvGet partNum k start end_]. split; [done|].
    by rewrite Nat.sub_diag.
  - pose proof (Hfail attempt ltac:(lia)) as Hnow.
    destruct (Nat.ltb_spec attempt R) as [_|]; [|lia].
    assert (Hstep : forall resp' st1 mid,
      fs st1 = fs st -> tempFiles st1 = tempFiles st ->
      errChan st1 = errChan st -> trace st1 = trace st ++ mid ->
      netEvents mid = [EvGet partNum attempt start end_;
                       EvSleep partNum attempt] ->
      let res := retryLoop env R url start end_ partNum remaining'
                   (S attempt) resp' st1 in
      res.1 = LoopLeft (Some r)
      /\ fs res.2 = fs st /\ tempFiles res.2 = tempFiles st
      /\ errChan res.2 = errChan st
      /\ exists tr, trace res.2 = trace st ++ tr
           /\ netEvents tr
              = attemptsWithPause partNum start end_ attempt (k - attempt)
                  ++ [EvGet partNum k start end_]).
    { intros resp' st1 mid Hfs Htmp Herr Htr Hmid res.
      destruct (IH (S attempt) resp' st1 ltac:(lia) ltac:(lia) Hreq)
        as (H1 & H2 & H3 & H4 & tr & H5 & H6); try done.
      { intros a Ha. apply Hfail. lia. }
      fold res in H1, H2, H3, H4, H5.
      split; [done|]. split; [congruence|]. split; [congruence|].
      split; [congruence|].
      exists (mid ++ tr). split.
      - rewrite H5, Htr. by rewrite <- app_assoc.
      - unfold netEvents in *. rewrite filter_app, Hmid, H6.
        replace (k - attempt)%nat with (S (k - S attempt)) by lia.
        done. }
    destruct (DoGet env partNum attempt start end_) as [cause|r'].
    + apply (Hstep None _ [EvGet partNum attempt start end_;
                           EvSleep partNum attempt]); try done.
      cbn. by rewrite <- !app_assoc.
    + cbn in Hnow. rewrite Hnow.
      apply (Hstep (Some r') _ [EvGet partNum attempt start end_;
                                EvCloseBody partNum;
                                EvSleep partNum attempt]); try done.
      cbn. by rewrite <- !app_assoc.
Qed.

(** The loop makes at most [remaining] network calls, and pauses
    between them only, [a] seconds after attempt [a]. *)
Lemma retryLoop_bounds remaining attempt resp st :
  (1 <= remaining)%nat -> (attempt + remaining = R + 1)%nat ->
  let res := retryLoop env R url start end_ partNum remaining attempt resp st in
  exists tr, trace res.2 = trace st ++ tr
    /\ (getCount tr <= remaining)%nat
    /\ 2 * Z.of_nat (sleepTotal tr)
       <= (Z.of_nat remaining - 1)
          * (2 * Z.of_nat attempt + Z.of_nat remaining - 2).
Proof.
  revert attempt resp st.
  induction remaining as [|remaining' IH]; intros attempt resp st Hrem Hsum;
    [lia|].
  cbn [retryLoop].
  assert (Hstep : forall resp' st1 mid,
    trace st1 = trace st ++ mid ->
    getCount mid = 1%nat -> sleepTotal mid = attempt ->
    (attempt < R)%nat ->
    let res := retryLoop env R url start end_ partNum remaining'
                 (S attempt) resp' st1 in
    exists tr, trace res.2 = trace st ++ tr
      /\ (getCount tr <= S remaining')%nat
      /\ 2 * Z.of_nat (sleepTotal tr)
         <= (Z.of_nat (S remaining') - 1)
            * (2 * Z.of_nat attempt + Z.of_nat (S remaining') - 2)).
  { intros resp' st1 mid Htr Hcount Hsleep Hlt res.
    destruct (IH (S attempt) resp' st1 ltac:(lia) ltac:(lia))
      as (tr & H1 & H2 & H3).
    fold res in H1. exists (mid ++ tr). split.
    { rewrite H1, Htr. by rewrite <- app_assoc. }
    assert (Hc : forall t1 t2, getCount (t1 ++ t2)
                               = (getCount t1 + getCount t2)%nat).
    { intros t1 t2. induction t1 as [|[] t1 IHt]; cbn; lia. }
    assert (Hs : forall t1 t2, sleepTotal (t1 ++ t2)
                               = (sleepTotal t1 + sleepTotal t2)%nat).
    { intros t1 t2. induction t1 as [|[] t1 IHt]; cbn; lia. }
    rewrite Hc, Hs, Hcount, Hsleep. split; [lia|]. nia. }
  assert (Hstop : forall st1 mid,
    trace st1 = trace st ++ mid ->
    (getCount mid <= 1)%nat -> sleepTotal mid = 0%nat ->
    exists tr, trace st1 = trace st ++ tr
      /\ (getCount tr <= S remaining')%nat
      /\ 2 * Z.of_nat (sleepTotal tr)
         <= (Z.of_nat (S remaining') - 1)
            * (2 * Z.of_nat attempt + Z.of_nat (S remaining') - 2)).
  { intros st1 mid Htr Hcount Hsleep. exists mid.
    split; [done|]. split; [lia|]. rewrite Hsleep. nia. }
  destruct (NewRequest env "GET" url) as [cause|].
  { apply (Hstop _ [EvSendErr (ErrPartCreateGet partNum cause)]);
      cbn; [done|lia|done]. }
  destruct (DoGet env partNum attempt start end_) as [cause|r].
  - destruct (Nat.ltb_spec attempt R) as [Hlt|Hge].
    + apply (Hstep None _ [EvGet partNum attempt start end_;
                           EvSleep partNum attempt]);
        [cbn; by rewrite <- !app_assoc | done | cbn; lia | done].
    + apply (Hstop _ [EvGet partNum attempt start end_;
                      EvSendErr (ErrPartGet partNum attempt cause)]);
        cbn; [by rewrite <- !app_assoc|lia|done].
  - destruct (negb (StatusCode r =? StatusPartialContent)
              && negb (StatusCode r =? StatusOK)).
    + destruct (Nat.ltb_spec attempt R) as [Hlt|Hge].
      * apply (Hstep (Some r) _ [EvGet partNum attempt start end_;
                                 EvCloseBody partNum;
                                 EvSleep partNum attempt]);
          [cbn; by rewrite <- !app_assoc | done | cbn; lia | done].
      * apply (Hstop _ [EvGet partNum attempt start end_;
                        EvCloseBody partNum;
                        EvSendErr (ErrPartStatus partNum (Status r))]);
          cbn; [by rewrite <- !app_assoc|lia|done].
    + apply (Hstop _ [EvGet partNum attempt start end_]);
        cbn; [done|lia|done].
Qed.

End Retries.

(** ** Part exactness *)

Lemma firstAccepted_Some env partNum start end_ attempt count k r :
  firstAccepted env partNum start end_ attempt count = Some (k, r) ->
  (attempt <= k < attempt + count)%nat
  /\ DoGet env partNum k start end_ = DoOk r
  /\ failedAttempt (DoOk r) = false
  /\ (forall a, (attempt <= a < k)%nat ->
        failedAttempt (DoGet env partNum a start end_) = true).
Proof.
  revert attempt. induction count as [|count IH]; intros attempt H; [done|].
  cbn [firstAccepted] in H.
  destruct (DoGet env partNum attempt start end_) as [cause|r'] eqn:Hget.
  - destruct (IH _ H) as (H1 & H2 & H3 & H4).
    split; [lia|]. split; [done|]. split; [done|].
    intros a Ha. destruct (decide (a = attempt)) as [->|];
      [by rewrite Hget|apply H4; lia].
  - destruct (failedAttempt (DoOk r')) eqn:Hfail.
    + destruct (IH _ H) as (H1 & H2 & H3 & H4).
      split; [lia|]. split; [done|]. split; [done|].
      intros a Ha. destruct (decide (a = attempt)) as [->|];
        [by rewrite Hget|apply H4; lia].
    + injection H as <- <-. split; [lia|]. split; [done|]. split; [done|].
      intros a Ha. lia.
Qed.

Lemma firstAccepted_None env partNum start end_ attempt count :
  firstAccepted env partNum start end_ attempt count = None ->
  forall a, (attempt <= a < attempt + count)%nat ->
    failedAttempt (DoGet env partNum a start end_) = true.
Proof.
  revert attempt. induction count as [|count IH]; intros attempt H a Ha;
    [lia|].
  cbn [firstAccepted] in H.
  destruct (DoGet env partNum attempt start end_) as [cause|r'] eqn:Hget.
  - destruct (decide (a = attempt)) as [->|];
      [by rewrite Hget|apply (IH _ H); lia].
  - destruct (failedAttempt (DoOk r')) eqn:Hfail; [|done].
    destruct (decide (a = attempt)) as [->|];
      [by rewrite Hget|apply (IH _ H); lia].
Qed.

(** C5, as the claim states it, fails: against a server that ignores
    [Range], the call for the range [[0, 0]] succeeds and its temporary
    file holds the five bytes of the whole content, not one byte. *)
Lemma part_exactness_counterexample :
  let res := downloadPart deafEnv MAX_RETRIES exampleURL 0 0 1 emptyState in
  res.1 = Returned
  /\ errChan res.2 = []
  /\ tempFiles res.2 = ["part-1.tmp"]
  /\ fs res.2 !! ("", "part-1.tmp") = Some abcde
  /\ Z.of_nat (length abcde) <> 0 - 0 + 1.
Proof. vm_compute. repeat split; congruence. Qed.

(** C5, amended.  A call whose request can be built is decided by the
    first of its [R] attempts that gets status 206 or 200, whatever the
    length of the body of that response.  When there is one and the
    temporary file can be created and written, the call succeeds and
    the file holds exactly that body: a body that is longer or shorter
    than the range is not refused, it is written.  The call fails, with
    one error and no name on [tempFiles], in three cases only: no
    attempt is accepted (the error of attempt [R]), the temporary file
    cannot be created, or the copy of the body fails. *)
Theorem part_artifact_is_accepted_body env R url start end_ partNum st :
  (1 <= R)%nat ->
  NewRequest env "GET" url = None ->
  let res := downloadPart env R url start end_ partNum st in
  res.1 = Returned
  /\ match firstAccepted env partNum start end_ 1 R with
     | None =>
         errChan res.2
         = errChan st
             ++ [lastError partNum R (DoGet env partNum R start end_)]
         /\ tempFiles res.2 = tempFiles st
         /\ fs res.2 = fs st
     | Some (k, r) =>
         match OsCreate env (tempFileName partNum),
               BodyCopyFault env partNum with
         | Some cause, _ =>
             errChan res.2 = errChan st ++ [ErrPartCreateTemp partNum cause]
             /\ tempFiles res.2 = tempFiles st
             /\ fs res.2 = fs st
         | None, Some (written, cause) =>
             errChan res.2 = errChan st ++ [ErrPartWriteTemp partNum cause]
             /\ tempFiles res.2 = tempFiles st
             /\ fs res.2
                = <[tempFile env partNum := take written (Body r)]> (fs st)
         | None, None =>
             errChan res.2 = errChan st
             /\ tempFiles res.2 = tempFiles st ++ [tempFileName partNum]
             /\ fs res.2 = <[tempFile env partNum := Body r]> (fs st)
         end
     end.
Proof.
  intros HR Hreq res. subst res.
  destruct (firstAccepted env partNum start end_ 1 R) as [[k r]|] eqn:Hfirst.
  - apply firstAccepted_Some in Hfirst as (Hk & Hget & Hok & Hfail).
    destruct (retryLoop_accepts env R url start end_ partNum R 1 None st k r
                ltac:(lia) ltac:(lia) Hreq Hfail Hget Hok)
      as (H1 & H2 & H3 & H4 & _).
    unfold downloadPart.
    destruct (retryLoop env R url start end_ partNum R 1 None st)
      as [ex st1].
    cbn [fst snd] in *. subst ex.
    destruct (OsCreate env (tempFileName partNum)) as [cause|].
    { cbn. split; [done|]. split; [congruence|]. split; congruence. }
    destruct (BodyCopyFault env partNum) as [[written cause]|];
      cbn [fst snd]; (split; [done|]).
    + split; [cbn; congruence|]. split; [cbn; congruence|].
      change (fs (appendFile env (tempFileName partNum)
                    (take written (Body r))
                    (createFile env (tempFileName partNum) st1))
              = <[tempFile env partNum:=take written (Body r)]> (fs st)).
      by rewrite appendFile_created, H2.
    + split; [cbn; congruence|]. split; [cbn -[tempFileName]; congruence|].
      change (fs (appendFile env (tempFileName partNum) (Body r)
                    (createFile env (tempFileName partNum) st1))
              = <[tempFile env partNum:=Body r]> (fs st)).
      by rewrite appendFile_created, H2.
  - pose proof (firstAccepted_None _ _ _ _ _ _ Hfirst) as Hfail.
    destruct (retryLoop_exhausted env R url start end_ partNum R 1 None st
                HR ltac:(lia) Hreq)
      as (H1 & H2 & H3 & H4 & _).
    { intros a Ha. apply Hfail. lia. }
    unfold downloadPart.
    destruct (retryLoop env R url start end_ partNum R 1 None st)
      as [ex st1].
    cbn [fst snd] in *. subst ex. cbn [fst snd]. done.
Qed.

(** The range [[0, 0]] of the five-byte example, on the server that
    ignores [Range]: the first attempt is accepted and the five bytes
    of its body are the temporary file. *)
Lemma part_artifact_is_accepted_body_witness :
  let res := downloadPart deafEnv MAX_RETRIES exampleURL 0 0 1 emptyState in
  res.1 = Returned
  /\ errChan res.2 = []
  /\ tempFiles res.2 = [] ++ [tempFileName 1]
  /\ fs res.2 = <[tempFile deafEnv 1 := abcde]> ∅.
Proof.
  exact (part_artifact_is_accepted_body deafEnv MAX_RETRIES exampleURL 0 0 1
           emptyState ltac:(unfold MAX_RETRIES; lia) eq_refl).
Defined.

(** ** Cancellation *)

(** C9, as the claim states it, fails: with the context done from the
    first attempt on, the call still pauses one and two seconds and
    makes the second and the third attempt, and what it reports is the
    error of an exhausted retry budget. *)
Lemma cancellation_counterexample :
  let res := downloadPart (cancelFrom 1 (contextCanceled exampleURL) fiveEnv)
               MAX_RETRIES exampleURL 0 0 1 emptyState in
  trace res.2
  = [EvGet 1 1 0 0; EvSleep 1 1; EvGet 1 2 0 0; EvSleep 1 2; EvGet 1 3 0 0;
     EvSendErr (ErrPartGet 1 3 (contextCanceled exampleURL))]
  /\ errChan res.2
     = [lastError 1 MAX_RETRIES (DoErr (contextCanceled exampleURL))].
Proof. vm_compute. split; reflexivity. Qed.

(** The text of that error. *)
Example cancelled_error_message :
  errorMessage (ErrPartGet 1 3 (contextCanceled exampleURL))
  = "part 1: failed to perform GET request after 3 attempts: Get "
      +:+ String "034" ("http://host/dir/f.bin"
      +:+ String "034" ": context canceled").
Proof. reflexivity. Qed.

(** The deadline of the context, which [main] sets to five minutes, is
    reported in the same way. *)
Example deadline_is_a_retrieval_failure :
  let res := downloadPart (cancelFrom 1 (deadlineExceeded exampleURL) fiveEnv)
               MAX_RETRIES exampleURL 0 0 1 emptyState in
  errChan res.2 = [ErrPartGet 1 3 (deadlineExceeded exampleURL)].
Proof. reflexivity. Qed.

(** C9, amended.  When the context is done at an attempt [k] that the
    call reaches, before any response was accepted, the call returns,
    writes no temporary file and sends exactly one message: the error of
    a failed retrieval, about its part, with the error of the context as
    its cause, be it a cancellation or a deadline. *)
Theorem cancelled_fetch_reports_retrieval_failure env R k cause url start
    end_ partNum st :
  (1 <= k <= R)%nat ->
  NewRequest env "GET" url = None ->
  (forall a, (1 <= a < k)%nat ->
     failedAttempt (DoGet env partNum a start end_) = true) ->
  let res := downloadPart (cancelFrom k cause env) R url start end_ partNum
               st in
  res.1 = Returned
  /\ (exists n, errChan res.2 = errChan st ++ [ErrPartGet partNum n cause])
  /\ tempFiles res.2 = tempFiles st
  /\ fs res.2 = fs st.
Proof.
  intros Hk Hreq Hbefore res.
  destruct (retryLoop_exhausted (cancelFrom k cause env) R url start end_
              partNum R 1 None st ltac:(lia) ltac:(lia) Hreq)
    as (H1 & H2 & H3 & H4 & _).
  { intros a Ha. cbn. destruct (Nat.leb_spec k a); [done|].
    apply Hbefore. lia. }
  subst res. unfold downloadPart.
  destruct (retryLoop (cancelFrom k cause env) R url start end_ partNum R 1
              None st) as [ex st1].
  cbn [fst snd] in *. subst ex. cbn [fst snd].
  repeat split; try done.
  exists R. rewrite H4. cbn.
  destruct (Nat.leb_spec k R); [done|lia].
Qed.

(** The context of the five-byte example is done at the second attempt
    of part 1, whose first attempt got status 500. *)
Lemma cancelled_fetch_witness :
  let res := downloadPart
               (cancelFrom 2 (contextCanceled exampleURL)
                  (failingParts [1%nat] fiveEnv))
               MAX_RETRIES exampleURL 0 0 1 emptyState in
  res.1 = Returned
  /\ (exists n, errChan res.2
                = [ErrPartGet 1 n (contextCanceled exampleURL)])
  /\ tempFiles res.2 = []
  /\ fs res.2 = ∅.
Proof.
  apply (cancelled_fetch_reports_retrieval_failure
           (failingParts [1%nat] fiveEnv) MAX_RETRIES 2
           (contextCanceled exampleURL) exampleURL 0 0 1 emptyState).
  - unfold MAX_RETRIES; lia.
  - reflexivity.
  - intros a _. reflexivity.
Defined.

(** ** File names *)

Lemma hasSlash_app s1 s2 : hasSlash (s1 +:+ s2) = hasSlash s1 || hasSlash s2.
Proof.
  induction s1 as [|c s1 IH]; [done|].
  change (String c s1 +:+ s2) with (String c (s1 +:+ s2)).
  cbn [hasSlash]. rewrite IH. by rewrite orb_assoc.
Qed.

Lemma hasSlash_digit x : isSlash (pretty_N_char x) = false.
Proof. unfold pretty_N_char. by repeat case_match. Qed.

Lemma hasSlash_pretty_N_go x s :
  hasSlash (pretty_N_go x s) = hasSlash s.
Proof.
  revert s. induction (N.lt_wf_0 x) as [x _ IH]; intros s.
  destruct (decide (x = 0)%N) as [->|Hx]; [by rewrite pretty_N_go_0|].
  rewrite pretty_N_go_step by lia.
  rewrite IH by (apply N.div_lt; lia).
  cbn. by rewrite hasSlash_digit.
Qed.

Lemma hasSlash_pretty_nat (n : nat) : hasSlash (pretty n) = false.
Proof.
  unfold pretty, pretty_nat, pretty, pretty_N.
  case_decide; [done|]. by rewrite hasSlash_pretty_N_go.
Qed.

Lemma tempFileName_no_slash partNum : hasSlash (tempFileName partNum) = false.
Proof.
  unfold tempFileName. by rewrite !hasSlash_app, hasSlash_pretty_nat.
Qed.

Lemma string_length_app (s1 s2 : string) :
  String.length (s1 +:+ s2) = (String.length s1 + String.length s2)%nat.
Proof.
  induction s1 as [|c s1 IH]; [done|].
  change (String c s1 +:+ s2) with (String c (s1 +:+ s2)).
  cbn [String.length]. by rewrite IH.
Qed.

Lemma string_app_inv_tail (s1 s2 t : string) : s1 +:+ t = s2 +:+ t -> s1 = s2.
Proof.
  revert s2. induction s1 as [|c s1 IH]; intros [|d s2] H.
  - done.
  - exfalso. apply (f_equal String.length) in H.
    rewrite !string_length_app in H. cbn in H. lia.
  - exfalso. apply (f_equal String.length) in H.
    rewrite !string_length_app in H. cbn in H. lia.
  - change (String c (s1 +:+ t) = String d (s2 +:+ t)) in H.
    injection H as -> H. f_equal. by apply IH.
Qed.

Lemma tempFileName_inj p q : tempFileName p = tempFileName q -> p = q.
Proof.
  unfold tempFileName. intros H.
  apply (inj (String.append "part-")) in H.
  apply string_app_inv_tail in H.
  by apply (inj pretty) in H.
Qed.

Lemma untilSlash_all l :
  Forall (fun c => isSlash c = false) l -> untilSlash l = l.
Proof. induction 1 as [|c l Hc _ IH]; cbn; [done|]. by rewrite Hc, IH. Qed.

Lemma fromSlash_none l :
  Forall (fun c => isSlash c = false) l -> fromSlash l = [].
Proof. induction 1 as [|c l Hc _ IH]; cbn; [done|]. by rewrite Hc. Qed.

Lemma no_slash_chars s :
  hasSlash s = false ->
  Forall (fun c => isSlash c = false) (list_ascii_of_string s).
Proof.
  induction s as [|c s IH]; cbn; [constructor|].
  intros [Hc Hs]%orb_false_iff. constructor; auto.
Qed.

(** A path without a slash has an empty directory part. *)
Lemma splitPath_name name : hasSlash name = false -> splitPath name = ("", name).
Proof.
  intros Hname. unfold splitPath.
  pose proof (no_slash_chars name Hname) as Hall. apply Forall_rev in Hall.
  rewrite fromSlash_none, untilSlash_all by done.
  by rewrite rev_involutive, string_of_list_ascii_of_string.
Qed.

(** The temporary file of a part is the entry [part-<n>.tmp] of the
    working directory. *)
Lemma tempFile_eq env p : tempFile env p = (DirOf env "", tempFileName p).
Proof.
  unfold tempFile, fileOf.
  by rewrite splitPath_name by apply tempFileName_no_slash.
Qed.

Lemma tempFile_inj env p q : tempFile env p = tempFile env q -> p = q.
Proof.
  rewrite !tempFile_eq. intros H. apply (f_equal snd) in H.
  by apply tempFileName_inj.
Qed.

(** An output path into another directory leads to no temporary file. *)
Lemma output_elsewhere env out :
  DirOf env (splitPath out).1 <> DirOf env "" ->
  forall p, fileOf env out <> tempFile env p.
Proof.
  intros Hdir p Heq. rewrite tempFile_eq in Heq.
  unfold fileOf in Heq. by apply (f_equal fst) in Heq.
Qed.

(** ** A part does the same in every state *)

Ltac state_eq :=
  repeat match goal with st : State |- _ => destruct st end;
  unfold addState, emit, sendErr, sendTemp, setFS, emptyState; cbn;
  f_equal;
  rewrite ?app_nil_r, ?app_nil_l, <- ?app_assoc, ?(left_id_L ∅ (∪)),
    ?(right_id_L ∅ (∪)), ?(assoc_L (∪));
  try done.

Lemma addState_empty st : addState st emptyState = st.
Proof. state_eq. Qed.

Lemma addState_emit ev st d : addState st (emit ev d) = emit ev (addState st d).
Proof. state_eq. Qed.

Lemma addState_sendErr e st d :
  addState st (sendErr e d) = sendErr e (addState st d).
Proof. state_eq. Qed.

Lemma addState_sendTemp n st d :
  addState st (sendTemp n d) = sendTemp n (addState st d).
Proof. state_eq. Qed.

Lemma addState_assoc st d1 d2 :
  addState st (addState d1 d2) = addState (addState st d1) d2.
Proof. state_eq. Qed.

Lemma addState_written env name data st d :
  appendFile env name data (createFile env name (addState st d))
  = addState st (appendFile env name data (createFile env name d)).
Proof.
  destruct st, d. unfold addState, appendFile, createFile, emit, setFS. cbn.
  rewrite !lookup_insert_eq. cbn. rewrite !insert_insert_eq.
  f_equal; [by rewrite insert_union_l | by rewrite <- app_assoc].
Qed.

Section Frame.

Variables (env : Env) (R : nat) (url : string) (start end_ : Z) (partNum : nat).

Lemma retryLoop_frame remaining attempt resp st :
  retryLoop env R url start end_ partNum remaining attempt resp st
  = let r := retryLoop env R url start end_ partNum remaining attempt resp
               emptyState in
    (r.1, addState st r.2).
Proof.
  revert attempt resp st.
  induction remaining as [|remaining' IH]; intros attempt resp st.
  { cbn. by rewrite addState_empty. }
  cbn [retryLoop]. cbn zeta.
  destruct (NewRequest env "GET" url) as [cause|].
  { cbn [fst snd]. by rewrite addState_sendErr, addState_empty. }
  destruct (DoGet env partNum attempt start end_) as [cause|r].
  - destruct (attempt <? R)%nat.
    + rewrite (IH _ _ (emit _ (emit _ st))),
        (IH _ _ (emit _ (emit _ emptyState))).
      cbn [fst snd]. f_equal.
      by rewrite addState_assoc, !addState_emit, addState_empty.
    + cbn [fst snd].
      by rewrite addState_sendErr, addState_emit, addState_empty.
  - destruct (negb (StatusCode r =? StatusPartialContent)
              && negb (StatusCode r =? StatusOK)).
    + destruct (attempt <? R)%nat.
      * rewrite (IH _ _ (emit _ (emit _ (emit _ st)))),
          (IH _ _ (emit _ (emit _ (emit _ emptyState)))).
        cbn [fst snd]. f_equal.
        by rewrite addState_assoc, !addState_emit, addState_empty.
      * cbn [fst snd].
        by rewrite addState_sendErr, !addState_emit, addState_empty.
    + cbn [fst snd]. by rewrite addState_emit, addState_empty.
Qed.

(** What a call sends and writes does not depend on the state in which
    it starts. *)
Lemma downloadPart_frame st :
  downloadPart env R url start end_ partNum st
  = let r := downloadPart env R url start end_ partNum emptyState in
    (r.1, addState st r.2).
Proof.
  unfold downloadPart. rewrite (retryLoop_frame R 1 None st). cbn zeta.
  destruct (retryLoop env R url start end_ partNum R 1 None emptyState)
    as [[|[resp|]] d]; cbn [fst snd]; try done.
  destruct (OsCreate env (tempFileName partNum)) as [cause|].
  { cbn [fst snd]. by rewrite addState_emit, addState_sendErr. }
  destruct (BodyCopyFault env partNum) as [[written cause]|]; cbn [fst snd].
  - by rewrite addState_emit, addState_sendErr, addState_written.
  - by rewrite addState_emit, addState_sendTemp, addState_written.
Qed.

End Frame.

(** ** The goroutines of [downloadFile] *)

Section RunParts.

Variables (env : Env) (R : nat) (url : string) (ranges : list (Z * Z)).
Hypothesis budget : (1 <= R)%nat.

(** What one part leaves behind when it starts in the empty state. *)
Lemma downloadPart_alone start end_ partNum :
  let r := downloadPart env R url start end_ partNum emptyState in
  r.1 = Returned
  /\ errChan r.2 = option_list (head (errChan r.2))
  /\ (forall file, file <> tempFile env partNum -> fs r.2 !! file = None).
Proof.
  intros r.
  destruct (downloadPart_cases env R url start end_ partNum emptyState budget)
    as [Hret [(err & H1 & _ & _ & H4)|(resp & a & _ & _ & _ & _ & _ & H1 & _ & H3)]];
    fold r in Hret, H1.
  - fold r in H4. split; [done|]. split; [by rewrite H1|].
    intros path Hpath. by rewrite H4.
  - fold r in H3. split; [done|]. split; [by rewrite H1|].
    intros path Hpath. rewrite H3. by rewrite lookup_insert_ne.
Qed.

(** The goroutines all return; [errChan] holds the errors of the parts
    that failed, in the order in which the parts ended; no file other
    than the temporary files of the goroutines is touched. *)
Lemma runParts_errors sched st :
  let res := runParts env R url ranges sched st in
  res.1 = Returned
  /\ errChan res.2 = errChan st ++ errorsInOrder env R url ranges sched
  /\ (forall file, (forall p, p ∈ sched -> file <> tempFile env p) ->
        fs res.2 !! file = fs st !! file).
Proof.
  revert st. induction sched as [|partNum sched' IH]; intros st.
  { cbn. by rewrite app_nil_r. }
  assert (Hrest : forall file,
            (forall p, p ∈ partNum :: sched' -> file <> tempFile env p) ->
            forall p, p ∈ sched' -> file <> tempFile env p).
  { intros file Hfile p Hp. apply Hfile, elem_of_cons. by right. }
  assert (Hskip : forall st',
            (runParts env R url ranges sched' st').1 = Returned
            /\ errChan (runParts env R url ranges sched' st').2
               = errChan st' ++ errorsInOrder env R url ranges sched'
            /\ (forall file,
                  (forall p, p ∈ partNum :: sched' -> file <> tempFile env p) ->
                  fs (runParts env R url ranges sched' st').2 !! file
                  = fs st' !! file)).
  { intros st'. destruct (IH st') as (IH1 & IH2 & IH3).
    split; [done|]. split; [done|]. intros file Hfile.
    apply IH3. by apply Hrest. }
  cbn [runParts]. unfold errorsInOrder. cbn [omap list_omap].
  unfold partError at 1.
  destruct (ranges !! (partNum - 1)%nat) as [[start end_]|]; [|apply Hskip].
  destruct (1 <=? partNum)%nat; [|apply Hskip].
  rewrite downloadPart_frame. cbn zeta.
  destruct (downloadPart_alone start end_ partNum) as (Hret & Herr & Hfs).
  destruct (downloadPart env R url start end_ partNum emptyState) as [ex d].
  cbn [fst snd] in *. subst ex.
  destruct (IH (addState st d)) as (IH1 & IH2 & IH3).
  split; [done|]. split.
  - rewrite IH2. cbn [errChan addState]. rewrite Herr at 1.
    destruct (head (errChan d)); cbn; by rewrite <- app_assoc.
  - intros file Hfile. rewrite IH3 by (by apply Hrest). cbn [fs addState].
    rewrite lookup_union_r; [done|]. apply Hfs, Hfile, elem_of_cons. by left.
Qed.

End RunParts.

(** ** Error selection *)

(** C7, as the claim states it, fails: parts 1 and 2 of the five-byte
    example both fail for good, part 2 ends before part 1, and the error
    that [downloadFile] returns is the one of part 2, not of part 1. *)
Lemma lowest_index_counterexample :
  let env := failingParts [1%nat; 2%nat] fiveEnv in
  let run := downloadFile env NUM_PARTS MAX_RETRIES [2; 1; 3; 4]%nat
               exampleURL "out" ∅ in
  partError env MAX_RETRIES exampleURL (planRanges NUM_PARTS 5) 1
  = Some (ErrPartStatus 1 "500 Internal Server Error")
  /\ run.1 = Done (Some (ErrPartStatus 2 "500 Internal Server Error"))
  /\ errorPart (ErrPartStatus 2 "500 Internal Server Error") = Some 2%nat.
Proof. vm_compute. repeat split; reflexivity. Qed.

(** C7, amended.  In a run whose metadata requests succeed and in which
    at least one part fails for good, [downloadFile] returns exactly one
    error, the error of the failing part that ended first, and the
    output file is not created: unless its path leads to the temporary
    file of one of the parts, it holds what it held before the run. *)
Theorem first_completed_error_wins env N R sched url filepath fs0
    fHeaders totalSize e :
  (1 <= R)%nat ->
  getFileHeaders env url = Ok fHeaders ->
  getFileSize env url = Ok totalSize ->
  head (errorsInOrder env R url (planRanges N totalSize) sched) = Some e ->
  let run := downloadFile env N R sched url filepath fs0 in
  let out := fileOf env (outputPath env fHeaders url filepath) in
  run.1 = Done (Some e)
  /\ ((forall p, p ∈ sched -> out <> tempFile env p) ->
      fs run.2 !! out = fs0 !! out).
Proof.
  intros HR Hhead Hsize Hfirst run out. subst run.
  unfold downloadFile. rewrite Hhead, Hsize.
  set (st0 := {| fs := fs0; tempFiles := []; errChan := []; trace := [] |}).
  destruct (runParts_errors env R url (planRanges N totalSize) HR sched st0)
    as (H1 & H2 & H3).
  destruct (runParts env R url (planRanges N totalSize) sched st0)
    as [ex st].
  cbn [fst snd] in *. subst ex. cbn [errChan st0 app] in H2.
  rewrite H2.
  destruct (errorsInOrder env R url (planRanges N totalSize) sched)
    as [|e' errs]; [done|].
  cbn in Hfirst. injection Hfirst as ->. cbn [fst snd].
  split; [done|]. intros Hout. by rewrite H3.
Qed.

(** Parts 1 and 2 of the five-byte example fail, part 2 ends first. *)
Lemma first_completed_error_witness :
  let env := failingParts [1%nat; 2%nat] fiveEnv in
  let run := downloadFile env NUM_PARTS MAX_RETRIES [2; 1; 3; 4]%nat
               exampleURL "out" ∅ in
  run.1 = Done (Some (ErrPartStatus 2 "500 Internal Server Error"))
  /\ fs run.2 !! ("out/", "f.bin") = None.
Proof.
  destruct (first_completed_error_wins
              (failingParts [1%nat; 2%nat] fiveEnv) NUM_PARTS MAX_RETRIES
              [2; 1; 3; 4]%nat exampleURL "out" ∅
              {| ContentLegnth := "5"; ContentDisposition := "";
                 ContentType := "" |} 5
              (ErrPartStatus 2 "500 Internal Server Error")
              ltac:(unfold MAX_RETRIES; lia) eq_refl eq_refl eq_refl)
    as [H1 H2].
  split; [exact H1|].
  refine (H2 _). intros p _. by apply output_elsewhere.
Defined.

(** The proviso of C7 is needed.  Five bytes at a URL whose last element
    is [part-2.tmp], downloaded into the working directory: part 1
    fails, part 2 has written its temporary file, and that file is what
    the output path leads to after the failed run. *)
Example failed_run_leaves_part_at_output_path :
  let env := failingParts [1%nat] fiveEnv in
  let url := "http://host/dir/part-2.tmp" in
  let headers := {| ContentLegnth := "5"; ContentDisposition := "";
                    ContentType := "" |} in
  let run := downloadFile env NUM_PARTS MAX_RETRIES [2; 1; 3; 4]%nat
               url "." ∅ in
  run.1 = Done (Some (ErrPartStatus 1 "500 Internal Server Error"))
  /\ fileOf env (outputPath env headers url ".") = tempFile env 2
  /\ fs run.2 !! fileOf env (outputPath env headers url ".")
     = Some [Byte.x62].
Proof. vm_compute. repeat split; reflexivity. Qed.

(** ** Small files *)

(** A size below the part count makes the part size 0: the first range
    is [[0, -1]], its start after its end. *)
Lemma small_file_first_range N totalSize :
  0 < totalSize < Z.of_nat N -> totalSize <= Int64.max_int ->
  planRange N totalSize 0 = (0, -1).
Proof.
  intros Hsz Hmax. rewrite planRange_exact by lia.
  rewrite Z.div_small by lia.
  destruct (Nat.eqb_spec 0 (N - 1)); [lia|done].
Qed.

(** C3, on the code.  A file of three bytes, four parts: the plan is
    [[0,-1]], [[0,-1]], [[0,-1]], [[0,2]].  Nothing clamps the part count
    and nothing rejects the file: the header [Range: bytes=0--1] is sent
    for part 1, and the run fails only when the server refuses it three
    times. *)
Theorem small_file_degenerate_ranges :
  planRanges NUM_PARTS 3 = [(0, -1); (0, -1); (0, -1); (0, 2)]
  /\ rangeHeader 0 (-1) = "bytes=0--1"
  /\ let run := downloadFile smallStrictEnv NUM_PARTS MAX_RETRIES
                  [1; 2; 3; 4]%nat exampleURL "out" ∅ in
     head (trace run.2) = Some (EvGet 1 1 0 (-1))
     /\ run.1 = Done (Some (ErrPartStatus 1
                              "416 Requested Range Not Satisfiable")).
Proof. vm_compute. repeat split; reflexivity. Qed.

(** ** The size of the file *)

(** An error of [getFileSize] or of [getFileHeaders] ends the run before
    any range is planned or requested. *)
Lemma metadata_error_is_terminal env N R sched url filepath fs0 :
  (exists e, getFileHeaders env url = Error e)
  \/ (exists e, getFileSize env url = Error e) ->
  let run := downloadFile env N R sched url filepath fs0 in
  (exists e, run.1 = Done (Some e)) /\ trace run.2 = [] /\ fs run.2 = fs0.
Proof.
  intros H run. subst run. unfold downloadFile.
  destruct (getFileHeaders env url) as [h|e1]; [|by eauto].
  destruct H as [[e H]|[e H]]; [done|]. rewrite H. by eauto.
Qed.

(** A missing [Content-Length], or one that [strconv.ParseInt] refuses,
    is an error of [getFileSize]. *)
Lemma getFileSize_rejects env url resp :
  NewRequest env "HEAD" url = None ->
  DoHead env 2 url = DoOk resp ->
  Get (Header resp) "Content-Length" = ""
  \/ (exists cause, ParseInt (Get (Header resp) "Content-Length") = inr cause) ->
  exists e, getFileSize env url = Error e.
Proof.
  intros Hreq Hdo H. unfold getFileSize. rewrite Hreq, Hdo.
  destruct (negb (StatusCode resp =? StatusOK)); [by eauto|].
  destruct H as [->|[cause H]]; [by eauto|].
  destruct (String.eqb _ ""); [by eauto|]. rewrite H. by eauto.
Qed.

(** C4, on the code.  A [Content-Length] of 0 is a size: [getFileSize]
    returns 0 without an error, four ranges [[0,-1]] are planned and
    requested.  Against a server that ignores the malformed header the
    run succeeds with an empty output file; against one that refuses it
    the run fails with the error of a part, after three attempts.  A
    negative [Content-Length] is a size as well. *)
Theorem zero_size_is_planned :
  getFileSize emptyLenientEnv exampleURL = Ok 0
  /\ planRanges NUM_PARTS 0 = [(0, -1); (0, -1); (0, -1); (0, -1)]
  /\ (let run := downloadFile emptyLenientEnv NUM_PARTS MAX_RETRIES
                   [1; 2; 3; 4]%nat exampleURL "out" ∅ in
      run.1 = Done None
      /\ head (trace run.2) = Some (EvGet 1 1 0 (-1))
      /\ fs run.2 !! fileOf emptyLenientEnv "out/f.bin" = Some [])
  /\ (let run := downloadFile emptyStrictEnv NUM_PARTS MAX_RETRIES
                   [1; 2; 3; 4]%nat exampleURL "out" ∅ in
      run.1 = Done (Some (ErrPartStatus 1
                            "416 Requested Range Not Satisfiable"))
      /\ head (trace run.2) = Some (EvGet 1 1 0 (-1)))
  /\ ParseInt "-5" = inl (-5).
Proof. vm_compute. repeat split; reflexivity. Qed.

(** ** The name of the output file *)

(** [path.Base] never returns the empty string. *)
Lemma Base_nonempty path : Base path <> "".
Proof.
  unfold Base. destruct (String.eqb path ""); [done|].
  destruct (String.eqb_spec
              (string_of_list_ascii
                 (rev (untilSlash
                         (dropSlashes (rev (list_ascii_of_string path))))))
              ""); [done|done].
Qed.

(** So the random name of [getFileName] is never used. *)
Lemma urlFileName_is_Base env url : urlFileName env url = Base url.
Proof.
  unfold urlFileName. destruct (String.eqb_spec (Base url) ""); [|done].
  by destruct (Base_nonempty url).
Qed.

(** [getFileHeaders] reads the header under the key [Content-Dispostion]. *)
Lemma getFileHeaders_disposition env url h :
  getFileHeaders env url = Ok h ->
  exists resp, DoHead env 1 url = DoOk resp
    /\ ContentDisposition h = Get (Header resp) "Content-Dispostion".
Proof.
  unfold getFileHeaders. intros H.
  destruct (NewRequest env "HEAD" url); [done|].
  destruct (DoHead env 1 url) as [|resp]; [done|].
  destruct (negb (StatusCode resp =? StatusOK)); [done|].
  destruct (String.eqb _ ""); [done|].
  injection H as <-. by exists resp.
Qed.

(** C8, on the code.  The server sends [Content-Disposition: attachment;
    filename=a.txt], and [getFileName] returns [a.txt] when it is given
    that header; but [getFileHeaders] looks the header up under another
    key, hands on the empty string, and the file is named after the URL:
    [out/f.bin].  A URL without a last path segment is named after what
    precedes it, never by the random name. *)
Theorem disposition_filename_ignored :
  let run := downloadFile dispositionEnv NUM_PARTS MAX_RETRIES
               [1; 2; 3; 4]%nat exampleURL "out" ∅ in
  getFileName dispositionEnv dispositionHeader exampleURL = "a.txt"
  /\ getFileHeaders dispositionEnv exampleURL
     = Ok {| ContentLegnth := "5"; ContentDisposition := "";
             ContentType := "" |}
  /\ run.1 = Done None
  /\ fs run.2 !! fileOf dispositionEnv "out/f.bin" = Some abcde
  /\ fs run.2 !! fileOf dispositionEnv "out/a.txt" = None
  /\ getFileName dispositionEnv "" "http://host/" = "host"
  /\ getFileName dispositionEnv "" "" = ".".
Proof. vm_compute. repeat split; reflexivity. Qed.

(** ** Reassembly *)

Lemma serveRange_honoring invalid content :
  RangeHonoring content (serveRange invalid content).
Proof.
  intros start end_ Hse Hend. unfold serveRange.
  destruct (Z.leb_spec 0 start); [|lia].
  destruct (Z.leb_spec start end_); [|lia].
  destruct (Z.ltb_spec start (Z.of_nat (length content))); [|lia].
  cbn. eexists. split; [done|]. split; [done|].
  cbn. by rewrite Z.min_l by lia.
Qed.

(** A part whose first attempt is answered by partial content, without
    local failure. *)
Lemma downloadPart_accepted env R url start end_ partNum st r :
  (1 <= R)%nat ->
  NewRequest env "GET" url = None ->
  DoGet env partNum 1 start end_ = DoOk r ->
  StatusCode r = StatusPartialContent ->
  OsCreate env (tempFileName partNum) = None ->
  BodyCopyFault env partNum = None ->
  let res := downloadPart env R url start end_ partNum st in
  res.1 = Returned
  /\ errChan res.2 = errChan st
  /\ fs res.2 = <[tempFile env partNum := Body r]> (fs st).
Proof.
  intros HR Hreq Hget Hst Hcreate Hcopy res. subst res.
  unfold downloadPart. destruct R as [|R']; [lia|].
  cbn [retryLoop]. rewrite Hreq, Hget, Hst. cbn [negb andb Z.eqb].
  change (StatusPartialContent =? StatusPartialContent) with true.
  cbn iota beta. rewrite Hcreate, Hcopy. cbn [fst snd].
  split; [done|]. split; [done|].
  change (fs (appendFile env (tempFileName partNum) (Body r)
                (createFile env (tempFileName partNum)
                   (emit (EvGet partNum 1 start end_) st)))
          = <[tempFile env partNum:=Body r]> (fs st)).
  by rewrite appendFile_created.
Qed.

Section Assemble.

Variables (env : Env) (out : string) (chunk : nat -> list byte).

(** A write to the output file while its directory entry exists. *)
Lemma writeOutput_open content st old :
  fs st !! fileOf env out = Some old ->
  fs (writeOutput env out content st) = <[fileOf env out := content]> (fs st).
Proof. intros Hold. unfold writeOutput. by rewrite Hold. Qed.

(** One round of the last loop, for a temporary file that is not the
    output file. *)
Lemma assemble_step i parts written st data :
  fileOf env out <> tempFile env i ->
  fs st !! tempFile env i = Some data ->
  assemble env out (i :: parts) written st
  = match AssembleCopyFault env i with
    | Some (copied, cause) =>
        (AssembleFailed (ErrWriteOutput (tempFileName i) cause),
         writeOutput env out (written ++ take copied data) st)
    | None =>
        assemble env out parts (written ++ data)
          (removeFile env (tempFileName i)
             (writeOutput env out (written ++ data) st))
    end.
Proof.
  intros Hne Hdata. cbn [assemble]. unfold tempFile in *. rewrite Hdata.
  by rewrite bool_decide_eq_false_2 by (intros Heq; by apply Hne).
Qed.

(** The state after a round without failure. *)
Lemma assemble_round_fs i written data st :
  fs st !! fileOf env out = Some written ->
  fs (removeFile env (tempFileName i)
        (writeOutput env out (written ++ data) st))
  = delete (tempFile env i) (<[fileOf env out := written ++ data]> (fs st)).
Proof.
  intros Hout. unfold removeFile. cbn [fs setFS].
  by rewrite (writeOutput_open _ _ written).
Qed.

(** The last loop appends the temporary files to the output file in the
    order of the list and removes them, when none of them is the output
    file itself. *)
Lemma assemble_concat parts written st :
  NoDup parts ->
  (forall p, p ∈ parts -> fileOf env out <> tempFile env p) ->
  (forall p, p ∈ parts -> AssembleCopyFault env p = None) ->
  fs st !! fileOf env out = Some written ->
  (forall p, p ∈ parts -> fs st !! tempFile env p = Some (chunk p)) ->
  let res := assemble env out parts written st in
  res.1 = Assembled
  /\ fs res.2 !! fileOf env out = Some (written ++ concat (map chunk parts))
  /\ (forall p, p ∈ parts -> fs res.2 !! tempFile env p = None)
  /\ (forall file, file <> fileOf env out ->
        (forall p, p ∈ parts -> file <> tempFile env p) ->
        fs res.2 !! file = fs st !! file).
Proof.
  revert st written. induction parts as [|i parts' IH];
    intros st written Hnd Hne Hfault Hout Htemp.
  { cbn. rewrite app_nil_r. repeat split; try done. intros p Hp. by inv Hp. }
  apply NoDup_cons in Hnd as [Hi Hnd].
  assert (Hin : i ∈ i :: parts') by (apply elem_of_cons; by left).
  assert (Htl : forall p, p ∈ parts' -> p ∈ i :: parts')
    by (intros p Hp; apply elem_of_cons; by right).
  cbn zeta.
  rewrite (assemble_step i parts' written st (chunk i)) by auto.
  rewrite Hfault by done.
  pose proof (assemble_round_fs i written (chunk i) st Hout) as Hfs1.
  set (st1 := removeFile env (tempFileName i)
                (writeOutput env out (written ++ chunk i) st)) in *.
  assert (Hother : forall p, p ∈ parts' -> tempFile env i <> tempFile env p).
  { intros p Hp Heq. apply tempFile_inj in Heq. by subst. }
  destruct (IH st1 (written ++ chunk i) Hnd) as (H1 & H2 & H3 & H4).
  - auto.
  - auto.
  - rewrite Hfs1, lookup_delete_ne by (intros Heq; by apply (Hne i)).
    by rewrite lookup_insert_eq.
  - intros p Hp. rewrite Hfs1, lookup_delete_ne by auto.
    rewrite lookup_insert_ne by auto. auto.
  - split; [done|]. split; [|split].
    + rewrite H2. cbn [map concat]. by rewrite <- app_assoc.
    + intros p Hp. apply elem_of_cons in Hp as [->|Hp]; [|by apply H3].
      rewrite H4; [| intros Heq; by apply (Hne i) | auto].
      rewrite Hfs1. apply lookup_delete_eq.
    + intros file Hfile Hparts.
      rewrite H4; [|done|auto].
      rewrite Hfs1.
      rewrite lookup_delete_ne by (apply not_eq_sym; auto).
      by rewrite lookup_insert_ne by (by apply not_eq_sym).
Qed.

End Assemble.

Section Chunks.

Variables (N : nat) (content : list byte).
Hypothesis parts_pos : (1 <= N)%nat.
Hypothesis enough_bytes : (N <= length content)%nat.
Hypothesis size_fits : Z.of_nat (length content) <= Int64.max_int.

Abbreviation T := (Z.of_nat (length content)).
Abbreviation b := (Z.of_nat (length content) / Z.of_nat N).

Lemma base_pos : 1 <= b.
Proof. apply Z.div_le_lower_bound; lia. Qed.

Lemma base_times_parts : Z.of_nat N * b <= T.
Proof. apply Z.mul_div_le; lia. Qed.

(** With at least as many bytes as parts, every planned range lies
    inside the content and is not empty. *)
Lemma planned_inside i start end_ :
  (i < N)%nat -> planRange N T i = (start, end_) ->
  0 <= start <= end_ /\ end_ < T.
Proof.
  intros Hi Hplan. rewrite planRange_exact in Hplan by lia.
  pose proof base_pos. pose proof base_times_parts.
  injection Hplan as <- <-.
  destruct (Nat.eqb_spec i (N - 1)); nia.
Qed.

Lemma chunk_inner i :
  (i < N - 1)%nat ->
  partChunk N content (S i)
  = take (Z.to_nat b) (drop (i * Z.to_nat b) content).
Proof.
  intros Hi. unfold partChunk.
  replace (S i - 1)%nat with i by lia.
  rewrite planRange_exact by lia.
  destruct (Nat.eqb_spec i (N - 1)); [lia|].
  pose proof base_pos. unfold slice. f_equal; [f_equal; lia|].
  f_equal. rewrite Z2Nat.inj_mul by lia. by rewrite Nat2Z.id.
Qed.

Lemma chunk_last :
  partChunk N content N = drop ((N - 1) * Z.to_nat b) content.
Proof.
  unfold partChunk. rewrite planRange_exact by lia.
  rewrite Nat.eqb_refl. unfold slice.
  pose proof base_pos. pose proof base_times_parts.
  replace (Z.to_nat (Z.of_nat (N - 1) * b)) with ((N - 1) * Z.to_nat b)%nat
    by (rewrite Z2Nat.inj_mul by lia; by rewrite Nat2Z.id).
  apply take_ge. rewrite length_drop.
  assert (Z.of_nat ((N - 1) * Z.to_nat b) = Z.of_nat (N - 1) * b)
    by (rewrite Nat2Z.inj_mul, Z2Nat.id by lia; done).
  lia.
Qed.

Lemma chunks_prefix k :
  (k <= N - 1)%nat ->
  concat (map (partChunk N content) (seq 1 k))
  = take (k * Z.to_nat b) content.
Proof.
  induction k as [|k IH]; intros Hk; [done|].
  rewrite seq_S, map_app, concat_app, IH by lia.
  cbn [map concat Nat.add]. rewrite app_nil_r.
  rewrite chunk_inner by lia. rewrite take_take_drop.
  f_equal. lia.
Qed.

(** The chunks of the parts, in the order of the part numbers, are the
    content. *)
Lemma chunks_concat :
  concat (map (partChunk N content) (seq 1 N)) = content.
Proof.
  replace N with (S (N - 1)) at 2 by lia.
  rewrite seq_S, map_app, concat_app, chunks_prefix by lia.
  cbn [map concat]. rewrite app_nil_r.
  replace (1 + (N - 1))%nat with N by lia.
  rewrite chunk_last. apply take_drop.
Qed.

End Chunks.

Section RoundTrip.

Variables (env : Env) (N R : nat) (url : string) (content : list byte).
Hypothesis parts_pos : (1 <= N)%nat.
Hypothesis budget : (1 <= R)%nat.
Hypothesis enough_bytes : (N <= length content)%nat.
Hypothesis size_fits : Z.of_nat (length content) <= Int64.max_int.
Hypothesis request_ok : NewRequest env "GET" url = None.
Hypothesis honoring : forall p a, RangeHonoring content (DoGet env p a).
Hypothesis create_ok : forall path, OsCreate env path = None.
Hypothesis body_ok : forall p, BodyCopyFault env p = None.

(** Against a server that honours ranges, whatever the order in which
    the goroutines end: none reports an error and each temporary file
    holds the chunk of its part. *)
Lemma runParts_honored sched st :
  NoDup sched -> (forall p, p ∈ sched -> (1 <= p <= N)%nat) ->
  let res := runParts env R url
               (planRanges N (Z.of_nat (length content))) sched st in
  res.1 = Returned
  /\ errChan res.2 = errChan st
  /\ (forall p, p ∈ sched ->
        fs res.2 !! tempFile env p = Some (partChunk N content p))
  /\ (forall file, (forall p, p ∈ sched -> file <> tempFile env p) ->
        fs res.2 !! file = fs st !! file).
Proof.
  revert st. induction sched as [|p sched' IH]; intros st Hnd Hin.
  { cbn. repeat split; try done. intros p Hp. by inv Hp. }
  apply NoDup_cons in Hnd as [Hp Hnd].
  assert (Hrange : (1 <= p <= N)%nat) by (apply Hin, elem_of_cons; by left).
  cbn [runParts]. rewrite planRanges_lookup by lia.
  destruct (planRange N (Z.of_nat (length content)) (p - 1))
    as [start end_] eqn:Hplan.
  destruct (Nat.leb_spec 1 p); [|lia].
  destruct (planned_inside N content parts_pos enough_bytes size_fits
              (p - 1) start end_ ltac:(lia) Hplan) as [Hse Hend].
  destruct (honoring p 1%nat start end_ Hse Hend) as (r & Hget & Hst & Hbody).
  destruct (downloadPart_accepted env R url start end_ p st r budget
              request_ok Hget Hst (create_ok _) (body_ok _))
    as (H1 & H2 & H3).
  destruct (downloadPart env R url start end_ p st) as [ex st1].
  cbn [fst snd] in *. subst ex.
  destruct (IH st1 Hnd) as (I1 & I2 & I3 & I4).
  { intros q Hq. apply Hin, elem_of_cons. by right. }
  split; [done|]. split; [congruence|]. split.
  - intros q Hq. apply elem_of_cons in Hq as [->|Hq]; [|by apply I3].
    rewrite I4.
    + rewrite H3, lookup_insert_eq. unfold partChunk.
      by rewrite Hplan, Hbody.
    + intros q Hq Heq. apply tempFile_inj in Heq. by subst.
  - intros path Hother. rewrite I4.
    + rewrite H3. apply lookup_insert_ne, not_eq_sym, Hother, elem_of_cons.
      by left.
    + intros q Hq. apply Hother, elem_of_cons. by right.
Qed.

Hypothesis assemble_ok : forall i, AssembleCopyFault env i = None.

(** C1, amended.  A content of at least [N] bytes, on a server that
    reports its size and honours ranges, without local failure, and an
    output path that leads to none of the temporary files of the parts:
    for every order in which the [N] goroutines end, [downloadFile]
    returns [nil], the output file holds the content, byte for byte, the
    temporary files are removed and no other file is touched. *)
Theorem download_roundtrip sched filepath fs0 fHeaders :
  sched ≡ₚ seq 1 N ->
  getFileHeaders env url = Ok fHeaders ->
  getFileSize env url = Ok (Z.of_nat (length content)) ->
  (forall p, (1 <= p <= N)%nat ->
     fileOf env (outputPath env fHeaders url filepath) <> tempFile env p) ->
  let run := downloadFile env N R sched url filepath fs0 in
  let out := fileOf env (outputPath env fHeaders url filepath) in
  run.1 = Done None
  /\ fs run.2 !! out = Some content
  /\ (forall p, (1 <= p <= N)%nat -> fs run.2 !! tempFile env p = None)
  /\ (forall file, file <> out ->
        (forall p, (1 <= p <= N)%nat -> file <> tempFile env p) ->
        fs run.2 !! file = fs0 !! file).
Proof.
  intros Hperm Hhead Hsize Hfree run out. subst run.
  unfold downloadFile. rewrite Hhead, Hsize.
  set (st0 := {| fs := fs0; tempFiles := []; errChan := []; trace := [] |}).
  assert (Hnd : NoDup sched) by (rewrite Hperm; apply NoDup_seq).
  assert (Hin : forall p, p ∈ sched <-> (1 <= p <= N)%nat).
  { intros p. rewrite Hperm, elem_of_seq. lia. }
  assert (Hseq : forall p, p ∈ seq 1 N -> (1 <= p <= N)%nat).
  { intros p Hp. apply elem_of_seq in Hp. lia. }
  destruct (runParts_honored sched st0 Hnd) as (H1 & H2 & H3 & H4).
  { intros p Hp. by apply Hin. }
  destruct (runParts env R url (planRanges N (Z.of_nat (length content)))
              sched st0) as [ex st].
  cbn [fst snd] in *. subst ex. rewrite H2. cbn [errChan st0].
  cbn zeta. rewrite create_ok.
  set (path := outputPath env fHeaders url filepath) in *.
  assert (Hcreated : fs (createFile env path st) = <[out := []]> (fs st))
    by done.
  destruct (assemble_concat env path (partChunk N content) (seq 1 N) []
              (createFile env path st) (NoDup_seq 1 N))
    as (A1 & A2 & A3 & A4).
  { intros p Hp. apply Hfree. by apply Hseq. }
  { intros p _. apply assemble_ok. }
  { rewrite Hcreated. apply lookup_insert_eq. }
  { intros p Hp. rewrite Hcreated.
    rewrite lookup_insert_ne by (apply Hfree; by apply Hseq).
    apply H3, Hin. by apply Hseq. }
  destruct (assemble env path (seq 1 N) [] (createFile env path st))
    as [ex st'].
  cbn [fst snd] in *. subst ex. cbn iota beta. cbn [fst snd].
  split; [done|]. split; [|split].
  - fold out in A2. rewrite A2. cbn [app]. f_equal. by apply chunks_concat.
  - intros p Hp. apply A3, elem_of_seq. lia.
  - intros file Hfile Hother. rewrite A4.
    + rewrite Hcreated. rewrite lookup_insert_ne by (by apply not_eq_sym).
      apply H4. intros p Hp. apply Hother, Hin, Hp.
    + done.
    + intros p Hp. apply Hother. by apply Hseq.
Qed.

End RoundTrip.

(** The five-byte example, the parts ending in the order 3, 1, 4, 2. *)
Lemma download_roundtrip_witness :
  let run := downloadFile fiveEnv NUM_PARTS MAX_RETRIES [3; 1; 4; 2]%nat
               exampleURL "out" ∅ in
  run.1 = Done None
  /\ fs run.2 !! fileOf fiveEnv "out/f.bin" = Some abcde
  /\ fs run.2 !! tempFile fiveEnv 1 = None.
Proof.
  destruct (download_roundtrip fiveEnv NUM_PARTS MAX_RETRIES exampleURL abcde)
    with (sched := [3; 1; 4; 2]%nat) (filepath := "out")
         (fs0 := (∅ : gmap File (list byte)))
         (fHeaders := {| ContentLegnth := "5"; ContentDisposition := "";
                         ContentType := "" |})
    as (H1 & H2 & H3 & _).
  - unfold NUM_PARTS; lia.
  - unfold MAX_RETRIES; lia.
  - unfold NUM_PARTS; cbn; lia.
  - unfold Int64.max_int; cbn; lia.
  - reflexivity.
  - intros p a. apply serveRange_honoring.
  - intros path. reflexivity.
  - intros p. reflexivity.
  - intros i. reflexivity.
  - change (seq 1 NUM_PARTS) with ([1; 2] ++ 3 :: [4])%nat.
    apply Permutation_cons_app. cbn [app].
    apply perm_skip, perm_swap.
  - reflexivity.
  - reflexivity.
  - intros p _. by apply output_elsewhere.
  - split; [exact H1|]. split; [exact H2|].
    apply (H3 1%nat). unfold NUM_PARTS; lia.
Defined.

(** C1, as the claim states it, fails: a content of three bytes, on a
    server that honours every range inside the content.  When the server
    refuses the malformed range [[0, -1]] of the first three parts, the
    run fails and there is no output file; when it ignores the malformed
    header and sends the whole content, the output file holds the
    content four times. *)
Lemma roundtrip_counterexample :
  RangeHonoring abc (strictServer abc)
  /\ RangeHonoring abc (lenientServer abc)
  /\ (let run := downloadFile smallStrictEnv NUM_PARTS MAX_RETRIES
                   [1; 2; 3; 4]%nat exampleURL "out" ∅ in
      run.1 = Done (Some (ErrPartStatus 1
                            "416 Requested Range Not Satisfiable"))
      /\ fs run.2 !! fileOf smallStrictEnv "out/f.bin" = None)
  /\ (let run := downloadFile smallLenientEnv NUM_PARTS MAX_RETRIES
                   [1; 2; 3; 4]%nat exampleURL "out" ∅ in
      run.1 = Done None
      /\ fs run.2 !! fileOf smallLenientEnv "out/f.bin"
         = Some (abc ++ abc ++ abc ++ abc)
      /\ abc ++ abc ++ abc ++ abc <> abc).
Proof.
  split; [apply serveRange_honoring|]. split; [apply serveRange_honoring|].
  vm_compute. repeat split; congruence.
Qed.

(** The output path of C1 must not lead to the temporary file of a
    part.  Five bytes at a URL whose last element is [part-1.tmp],
    downloaded into the working directory: the output file is the
    temporary file of part 1.  [os.Create] empties it, the first round
    of the last loop copies nothing and removes it, the other rounds
    write to a file that has no name any more: [downloadFile] returns
    [nil] and leaves no file at all. *)
Example output_over_part_file :
  let url := "http://host/dir/part-1.tmp" in
  let headers := {| ContentLegnth := "5"; ContentDisposition := "";
                    ContentType := "" |} in
  let run := downloadFile fiveEnv NUM_PARTS MAX_RETRIES [1; 2; 3; 4]%nat
               url "." ∅ in
  outputPath fiveEnv headers url "." = "./part-1.tmp"
  /\ fileOf fiveEnv "./part-1.tmp" = tempFile fiveEnv 1
  /\ run.1 = Done None
  /\ fs run.2 = ∅.
Proof. vm_compute. repeat split; reflexivity. Qed.

(** With the output over the temporary file of a later part, the last
    loop comes to copy the output file into itself: [downloadFile] does
    not return. *)
Example output_over_later_part_file :
  let run := downloadFile fiveEnv NUM_PARTS MAX_RETRIES [1; 2; 3; 4]%nat
               "http://host/dir/part-2.tmp" "." ∅ in
  run.1 = Hangs.
Proof. vm_compute. reflexivity. Qed.

(** * Further properties of the code *)

(** ** The range planner, sizes of at least [N] bytes *)

(** X1. When the file has at least as many bytes as there are parts,
    every planned range is a non-empty range inside the file:
    [0 <= start <= end < totalSize]. *)
Theorem planned_ranges_valid (N : nat) (totalSize : Z) i r :
  (1 <= N)%nat -> Z.of_nat N <= totalSize <= Int64.max_int ->
  planRanges N totalSize !! i = Some r ->
  0 <= fst r <= snd r /\ snd r < totalSize.
Proof.
  intros HN Hsz Hr. apply planRanges_lookup_inv in Hr as [Hi ->].
  rewrite planRange_exact by lia.
  assert (Hb : 1 <= totalSize / Z.of_nat N)
    by (apply Z.div_le_lower_bound; lia).
  assert (HbN : Z.of_nat N * (totalSize / Z.of_nat N) <= totalSize)
    by (apply Z.mul_div_le; lia).
  cbn [fst snd]. destruct (Nat.eqb_spec i (N - 1)); nia.
Qed.

Lemma planned_ranges_valid_witness :
  0 <= fst (25, 49) <= snd (25, 49) /\ snd (25, 49) < 101.
Proof.
  apply (planned_ranges_valid NUM_PARTS 101 1 (25, 49)).
  - unfold NUM_PARTS; lia.
  - unfold NUM_PARTS, Int64.max_int; lia.
  - reflexivity.
Defined.

(** X2. Every range but the last has [totalSize / N] bytes; the last
    one has the [totalSize mod N] bytes of the remainder on top, so less
    than [N] bytes more than the others. *)
Theorem planned_range_lengths (N : nat) (totalSize : Z) i r :
  (1 <= N)%nat -> 0 <= totalSize <= Int64.max_int ->
  planRanges N totalSize !! i = Some r ->
  rangeLen r
  = if Nat.eqb i (N - 1)
    then totalSize / Z.of_nat N + totalSize mod Z.of_nat N
    else totalSize / Z.of_nat N.
Proof.
  intros HN Hsz Hr. apply planRanges_lookup_inv in Hr as [Hi ->].
  rewrite planRange_exact by lia. unfold rangeLen. cbn [fst snd].
  destruct (Nat.eqb_spec i (N - 1)) as [->|]; [|lia].
  rewrite Nat2Z.inj_sub by lia.
  pose proof (Z.div_mod totalSize (Z.of_nat N) ltac:(lia)). lia.
Qed.

Lemma planned_range_lengths_witness :
  rangeLen (75, 100) = 101 / 4 + 101 mod 4.
Proof.
  apply (planned_range_lengths NUM_PARTS 101 3 (75, 100)).
  - unfold NUM_PARTS; lia.
  - unfold Int64.max_int; lia.
  - reflexivity.
Defined.

(** ** [Content-Length] *)

Lemma digitValue_pretty_char d :
  (d < 10)%N -> digitValue (pretty_N_char d) = Some (Z.of_N d).
Proof.
  intros Hd.
  assert (d = 0 \/ d = 1 \/ d = 2 \/ d = 3 \/ d = 4 \/ d = 5 \/ d = 6
          \/ d = 7 \/ d = 8 \/ d = 9)%N as Hcases by lia.
  repeat (destruct Hcases as [->|Hcases]; [reflexivity|]).
  by subst.
Qed.

(** Reading the digits that [pretty_N_go] wrote in front of [s] shifts
    the accumulator and adds the number. *)
Lemma parseDigits_pretty_go x s :
  exists m, forall acc,
    parseDigits (pretty_N_go x s) acc = parseDigits s (acc * m + Z.of_N x).
Proof.
  revert s. induction (N.lt_wf_0 x) as [x _ IH]; intros s.
  destruct (decide (x = 0)%N) as [->|Hx].
  { exists 1. intros acc. rewrite pretty_N_go_0. f_equal. lia. }
  rewrite pretty_N_go_step by lia.
  destruct (IH (x `div` 10)%N ltac:(apply N.div_lt; lia)
              (String (pretty_N_char (x `mod` 10)) s)) as [m Hm].
  exists (10 * m). intros acc. rewrite Hm. cbn [parseDigits].
  rewrite digitValue_pretty_char by (apply N.mod_lt; lia).
  f_equal. rewrite N2Z.inj_div, N2Z.inj_mod.
  pose proof (Z.div_mod (Z.of_N x) 10 ltac:(lia)). change (Z.of_N 10) with 10.
  lia.
Qed.

Lemma pretty_go_head x s :
  (0 < x)%N ->
  exists c t d, pretty_N_go x s = String c t /\ digitValue c = Some d.
Proof.
  revert s. induction (N.lt_wf_0 x) as [x _ IH]; intros s Hx.
  rewrite pretty_N_go_step by lia.
  destruct (decide (x `div` 10 = 0)%N) as [->|Hdiv].
  - rewrite pretty_N_go_0. eexists _, _, _. split; [done|].
    apply digitValue_pretty_char, N.mod_lt. lia.
  - apply IH; [apply N.div_lt; lia | ].
    apply N.neq_0_lt_0. done.
Qed.

Lemma digit_not_sign c d :
  digitValue c = Some d ->
  Ascii.eqb c "-" = false /\ Ascii.eqb c "+" = false.
Proof.
  intros H. split.
  - destruct (Ascii.eqb_spec c "-") as [->|]; [by vm_compute in H|done].
  - destruct (Ascii.eqb_spec c "+") as [->|]; [by vm_compute in H|done].
Qed.

Lemma ParseInt_positive (x : positive) :
  Z.pos x <= Int64.max_int ->
  ParseInt (pretty (N.pos x)) = inl (Z.pos x).
Proof.
  intros Hmax. unfold pretty, pretty_N. case_decide; [done|].
  destruct (pretty_go_head (N.pos x) "" ltac:(lia)) as (c & t & d & Heq & Hd).
  destruct (parseDigits_pretty_go (N.pos x) "") as [m Hm].
  specialize (Hm 0). rewrite Heq in Hm |- *.
  destruct (digit_not_sign c d Hd) as [Hminus Hplus].
  unfold ParseInt. rewrite Hminus, Hplus. cbn [orb negb andb].
  rewrite Hm. cbn [parseDigits]. rewrite Z.mul_0_l, Z.add_0_l.
  change (Z.of_N (N.pos x)) with (Z.pos x).
  unfold Int64.max_int in Hmax.
  destruct (Z.leb_spec (2 ^ 63) (Z.pos x)); [lia|done].
Qed.

Lemma ParseInt_negative (x : positive) :
  Int64.min_int <= Z.neg x ->
  ParseInt ("-" +:+ pretty (N.pos x)) = inl (Z.neg x).
Proof.
  intros Hmin. unfold pretty, pretty_N. case_decide; [done|].
  destruct (pretty_go_head (N.pos x) "" ltac:(lia)) as (c & t & d & Heq & Hd).
  destruct (parseDigits_pretty_go (N.pos x) "") as [m Hm].
  specialize (Hm 0). rewrite Heq in Hm |- *.
  change ("-" +:+ String c t) with (String "-" (String c t)).
  unfold ParseInt. cbn [Ascii.eqb Bool.eqb orb negb andb].
  rewrite Hm. cbn [parseDigits]. rewrite Z.mul_0_l, Z.add_0_l.
  change (Z.of_N (N.pos x)) with (Z.pos x).
  unfold Int64.min_int in Hmin.
  destruct (Z.ltb_spec (2 ^ 63) (Z.pos x)); [lia|done].
Qed.

(** [strconv.ParseInt] reads back the decimal text of every [int64]. *)
Lemma ParseInt_pretty (n : Z) :
  Int64.in_range n -> ParseInt (pretty n) = inl n.
Proof.
  intros [Hmin Hmax]. destruct n as [|x|x].
  - reflexivity.
  - by apply ParseInt_positive.
  - by apply ParseInt_negative.
Qed.

Lemma pretty_Z_nonempty (n : Z) : pretty n <> "".
Proof.
  destruct n as [|x|x]; [done| |done].
  unfold pretty, pretty_Z, pretty, pretty_positive, pretty, pretty_N.
  case_decide; [done|].
  destruct (pretty_go_head (N.pos x) "" ltac:(lia)) as (c & t & d & -> & _).
  done.
Qed.

(** X3. When the second HEAD request is answered with status 200 and a
    [Content-Length] that is the decimal text of an [int64] [n],
    [getFileSize] returns [n]. *)
Theorem getFileSize_decimal env url resp (n : Z) :
  NewRequest env "HEAD" url = None ->
  DoHead env 2 url = DoOk resp ->
  StatusCode resp = StatusOK ->
  Get (Header resp) "Content-Length" = pretty n ->
  Int64.in_range n ->
  getFileSize env url = Ok n.
Proof.
  intros Hreq Hdo Hst Hcl Hn. unfold getFileSize.
  rewrite Hreq, Hdo, Hst, Hcl. cbn [Z.eqb negb].
  change (StatusOK =? StatusOK) with true. cbn [negb].
  destruct (String.eqb_spec (pretty n) "") as [Hempty|_].
  { by destruct (pretty_Z_nonempty n). }
  by rewrite ParseInt_pretty.
Qed.

Lemma getFileSize_decimal_witness :
  getFileSize fiveEnv exampleURL = Ok 5.
Proof.
  apply (getFileSize_decimal fiveEnv exampleURL
           {| StatusCode := StatusOK; Status := "200 OK";
              Header := {[ "Content-Length" := "5" ]}; Body := [] |} 5).
  - reflexivity.
  - reflexivity.
  - reflexivity.
  - reflexivity.
  - unfold Int64.in_range, Int64.min_int, Int64.max_int. lia.
Defined.



Lemma parseDigits_allDigits s acc n :
  parseDigits s acc = Some n -> allDigits s = true.
Proof.
  revert acc. induction s as [|c s IH]; intros acc H; cbn in *; [done|].
  destruct (digitValue c); [by eapply IH|done].
Qed.




(** X5. [strconv.ParseInt] accepts a text only when it is a non-empty
    run of decimal digits, with at most one sign in front: a
    [Content-Length] with a space, a unit, a decimal point or an
    underscore is refused. *)
Theorem ParseInt_accepts_only_digits s z :
  ParseInt s = inl z ->
  exists body, body <> "" /\ allDigits body = true
    /\ (s = body \/ s = String "+" body \/ s = String "-" body).
Proof.
  unfold ParseInt. destruct s as [|c s']; [done|].
  destruct (Ascii.eqb_spec c "-") as [->|Hminus].
  - cbn [orb]. destruct s' as [|c0 s0]; [done|].
    destruct (parseDigits (String c0 s0) 0) eqn:Hun; [|done].
    intros _. exists (String c0 s0). split; [done|].
    split; [by eapply parseDigits_allDigits|]. by right; right.
  - cbn [orb]. destruct (Ascii.eqb_spec c "+") as [->|Hplus].
    + destruct s' as [|c0 s0]; [done|].
      destruct (parseDigits (String c0 s0) 0) eqn:Hun; [|done].
      intros _. exists (String c0 s0). split; [done|].
      split; [by eapply parseDigits_allDigits|]. by right; left.
    + destruct (parseDigits (String c s') 0) eqn:Hun; [|done].
      intros _. exists (String c s'). split; [done|].
      split; [by eapply parseDigits_allDigits|]. by left.
Qed.

Lemma ParseInt_accepts_only_digits_witness :
  exists body, body <> "" /\ allDigits body = true
    /\ ("-42" = body \/ "-42" = String "+" body \/ "-42" = String "-" body).
Proof.
  apply (ParseInt_accepts_only_digits "-42" (-42)). reflexivity.
Defined.

(** ** [path.Base] *)

Lemma list_ascii_of_string_app (s1 s2 : string) :
  list_ascii_of_string (s1 +:+ s2)
  = list_ascii_of_string s1 ++ list_ascii_of_string s2.
Proof.
  induction s1 as [|c s1 IH]; [done|].
  change (String c s1 +:+ s2) with (String c (s1 +:+ s2)).
  cbn [list_ascii_of_string app]. by rewrite IH.
Qed.

Lemma hasSlash_list s :
  hasSlash s = false ->
  Forall (fun c => isSlash c = false) (list_ascii_of_string s).
Proof.
  induction s as [|c s IH]; cbn; [constructor|].
  intros [Hc Hs]%orb_false_iff. constructor; auto.
Qed.

Lemma hasSlash_of_list l :
  Forall (fun c => isSlash c = false) l ->
  hasSlash (string_of_list_ascii l) = false.
Proof.
  induction 1 as [|c l Hc _ IH]; cbn; [done|]. by rewrite Hc, IH.
Qed.

Lemma untilSlash_no_slash l :
  Forall (fun c => isSlash c = false) (untilSlash l).
Proof.
  induction l as [|c l IH]; cbn; [constructor|].
  destruct (isSlash c) eqn:Hc; [constructor|]. by constructor.
Qed.

Lemma untilSlash_app l l' :
  Forall (fun c => isSlash c = false) l ->
  untilSlash (l ++ "/"%char :: l') = l.
Proof.
  induction 1 as [|c l Hc _ IH]; cbn; [done|]. by rewrite Hc, IH.
Qed.

Lemma string_app_nonempty (s1 s2 : string) : s2 <> "" -> s1 +:+ s2 <> "".
Proof.
  intros Hs2 Heq. apply (f_equal String.length) in Heq.
  rewrite string_length_app in Heq. destruct s2; [done|]. cbn in Heq. lia.
Qed.

(** X6. The base name of a path that ends in a slash-free, non-empty
    last element is that element: [.../report.pdf] gives [report.pdf]. *)
Theorem Base_last_element (dir name : string) :
  name <> "" -> hasSlash name = false ->
  Base (dir +:+ "/" +:+ name) = name.
Proof.
  intros Hname Hslash. unfold Base.
  destruct (String.eqb_spec (dir +:+ "/" +:+ name) "") as [Hempty|_].
  { by apply string_app_nonempty in Hempty. }
  rewrite !list_ascii_of_string_app. cbn [list_ascii_of_string app].
  rewrite rev_app_distr. cbn [rev]. rewrite <- app_assoc. cbn [app].
  pose proof (hasSlash_list name Hslash) as Hall.
  apply Forall_rev in Hall.
  destruct (rev (list_ascii_of_string name)) as [|c l] eqn:Hrev.
  { apply (f_equal (@rev ascii)) in Hrev. rewrite rev_involutive in Hrev.
    apply (f_equal string_of_list_ascii) in Hrev.
    rewrite string_of_list_ascii_of_string in Hrev. done. }
  cbn [app dropSlashes]. inversion Hall as [|? ? Hc Hl]; subst.
  rewrite Hc.
  change (c :: l ++ "/"%char :: rev (list_ascii_of_string dir))
    with ((c :: l) ++ "/"%char :: rev (list_ascii_of_string dir)).
  rewrite untilSlash_app by done.
  rewrite <- Hrev, rev_involutive, string_of_list_ascii_of_string.
  by destruct (String.eqb_spec name "").
Qed.

Lemma Base_last_element_witness : Base "http://host/docs/report.pdf" = "report.pdf".
Proof.
  apply (Base_last_element "http://host/docs" "report.pdf"); [done|reflexivity].
Defined.

(** X7. A slash at the end of a non-empty path does not change its base
    name: [http://host/dir/] is named as [http://host/dir]. *)
Theorem Base_trailing_slash (path : string) :
  path <> "" -> Base (path +:+ "/") = Base path.
Proof.
  intros Hpath. unfold Base.
  destruct (String.eqb_spec (path +:+ "/") "") as [Hempty|_].
  { by apply string_app_nonempty in Hempty. }
  destruct (String.eqb_spec path ""); [done|].
  rewrite list_ascii_of_string_app, rev_app_distr. done.
Qed.

Lemma Base_trailing_slash_witness :
  Base ("http://host/dir" +:+ "/") = Base "http://host/dir".
Proof. by apply (Base_trailing_slash "http://host/dir"). Defined.

(** X8. A base name holds no slash, unless it is the name ["/"] of a
    path made of slashes only. *)
Theorem Base_no_slash (path : string) :
  hasSlash (Base path) = true -> Base path = "/".
Proof.
  unfold Base. destruct (String.eqb path ""); [done|].
  destruct (String.eqb _ ""); [done|].
  rewrite hasSlash_of_list; [done|].
  apply Forall_rev, untilSlash_no_slash.
Qed.

Lemma Base_no_slash_witness : Base "//" = "/".
Proof. by apply (Base_no_slash "//"). Defined.

(** ** [detectFileType], [getFileName] *)





(** X10. Without a file name from the disposition - the header is
    empty, or [mime.ParseMediaType] refuses it, or it has no [filename]
    parameter - [getFileName] returns [path.Base(url)], which is not
    empty, whatever [rand.Int64] would give. *)
Theorem getFileName_falls_back_to_Base env contentDisposition url :
  contentDisposition = ""
  \/ ParseMediaType env contentDisposition = None
  \/ (exists mediaType params,
        ParseMediaType env contentDisposition = Some (mediaType, params)
        /\ params !! "filename" = None) ->
  getFileName env contentDisposition url = Base url
  /\ getFileName env contentDisposition url <> "".
Proof.
  intros H.
  assert (Hname : getFileName env contentDisposition url = Base url).
  { unfold getFileName.
    destruct (negb (String.eqb contentDisposition "")) eqn:Hcd;
      [|apply urlFileName_is_Base].
    destruct H as [->|[H|(mt & params & H & Hf)]].
    - done.
    - rewrite H. apply urlFileName_is_Base.
    - rewrite H, Hf. apply urlFileName_is_Base. }
  split; [done|]. rewrite Hname. apply Base_nonempty.
Qed.

Lemma getFileName_falls_back_witness :
  getFileName fiveEnv "inline" exampleURL = Base exampleURL
  /\ getFileName fiveEnv "inline" exampleURL <> "".
Proof.
  apply (getFileName_falls_back_to_Base fiveEnv "inline" exampleURL).
  right; left. reflexivity.
Defined.

(** ** [downloadPart]: retries *)

Lemma netEvents_app tr1 tr2 :
  netEvents (tr1 ++ tr2) = netEvents tr1 ++ netEvents tr2.
Proof. unfold netEvents. apply filter_app. Qed.

Lemma getCount_app tr1 tr2 :
  getCount (tr1 ++ tr2) = (getCount tr1 + getCount tr2)%nat.
Proof. induction tr1 as [|[] tr1 IH]; cbn; lia. Qed.

Lemma sleepTotal_app tr1 tr2 :
  sleepTotal (tr1 ++ tr2) = (sleepTotal tr1 + sleepTotal tr2)%nat.
Proof. induction tr1 as [|[] tr1 IH]; cbn; lia. Qed.

Lemma getCount_netEvents tr : getCount (netEvents tr) = getCount tr.
Proof.
  induction tr as [|ev tr IH]; [done|].
  unfold netEvents in *. rewrite filter_cons.
  destruct ev; cbn [isNetEvent getCount];
    (destruct (decide _) as [H|H];
     [cbn [getCount]; by rewrite ?IH | try done; by destruct H]).
Qed.

Lemma getCount_attemptsWithPause partNum start end_ from count :
  getCount (attemptsWithPause partNum start end_ from count) = count.
Proof.
  revert from. induction count as [|count IH]; intros from; cbn; [done|].
  by rewrite IH.
Qed.

(** X11. Retry, then success.  When the attempts before [k] fail and
    attempt [k <= R] gets status 200 or 206, without local failure: the
    call makes exactly the attempts [1 .. k], with a pause of [a]
    seconds after attempt [a < k], stores the body of the response of
    attempt [k] in its temporary file and sends the name of that file;
    it reports no error. *)
Theorem retry_then_success env R url start end_ partNum st k r :
  (1 <= k <= R)%nat ->
  NewRequest env "GET" url = None ->
  (forall a, (1 <= a < k)%nat ->
     failedAttempt (DoGet env partNum a start end_) = true) ->
  DoGet env partNum k start end_ = DoOk r ->
  failedAttempt (DoOk r) = false ->
  OsCreate env (tempFileName partNum) = None ->
  BodyCopyFault env partNum = None ->
  let res := downloadPart env R url start end_ partNum st in
  res.1 = Returned
  /\ errChan res.2 = errChan st
  /\ tempFiles res.2 = tempFiles st ++ [tempFileName partNum]
  /\ fs res.2 = <[tempFile env partNum := Body r]> (fs st)
  /\ exists tr, trace res.2 = trace st ++ tr
       /\ netEvents tr
          = attemptsWithPause partNum start end_ 1 (k - 1)
              ++ [EvGet partNum k start end_].
Proof.
  intros Hk Hreq Hfail Hget Hok Hcreate Hcopy res. subst res.
  destruct (retryLoop_accepts env R url start end_ partNum R 1 None st k r
              ltac:(lia) Hk Hreq Hfail Hget Hok)
    as (H1 & H2 & H3 & H4 & tr & H5 & H6).
  unfold downloadPart.
  destruct (retryLoop env R url start end_ partNum R 1 None st) as [ex st1].
  cbn [fst snd] in *. subst ex. rewrite Hcreate, Hcopy. cbn [fst snd].
  split; [done|]. split; [cbn; congruence|].
  split; [cbn -[tempFileName]; congruence|]. split.
  - change (fs (appendFile env (tempFileName partNum) (Body r)
                  (createFile env (tempFileName partNum) st1))
            = <[tempFile env partNum:=Body r]> (fs st)).
    by rewrite appendFile_created, H2.
  - exists (tr ++ [EvCreate (tempFileName partNum);
                   EvSendTemp (tempFileName partNum);
                   EvCloseBody partNum]).
    split.
    + cbn -[tempFileName]. rewrite H5. by rewrite <- !app_assoc.
    + rewrite netEvents_app, H6. cbn. by rewrite app_nil_r.
Qed.

(** Part 1 of the five-byte example; the network cuts the first
    attempt. *)
Lemma retry_then_success_witness :
  let res := downloadPart (failFirst 1 fiveEnv) MAX_RETRIES exampleURL
               0 0 1 emptyState in
  res.1 = Returned
  /\ errChan res.2 = []
  /\ tempFiles res.2 = [tempFileName 1]
  /\ fs res.2 = {[ tempFile (failFirst 1 fiveEnv) 1 := [Byte.x61] ]}
  /\ exists tr, trace res.2 = [] ++ tr
       /\ netEvents tr = [EvGet 1 1 0 0; EvSleep 1 1; EvGet 1 2 0 0].
Proof.
  apply (retry_then_success (failFirst 1 fiveEnv) MAX_RETRIES
           exampleURL 0 0 1 emptyState 2
           (mkResponse StatusPartialContent "206 Partial Content"
              [Byte.x61])).
  - unfold MAX_RETRIES; lia.
  - reflexivity.
  - intros a Ha. assert (a = 1%nat) as -> by lia. reflexivity.
  - reflexivity.
  - reflexivity.
  - reflexivity.
  - reflexivity.
Defined.

(** X12. A local write failure is not retried.  When attempt [k] is
    accepted and the copy of its body into the temporary file fails
    after [written] bytes, the call reports the write error of its part
    and sends no file name; it makes no network call beyond attempt [k],
    whatever is left of its budget, and the temporary file stays, with
    the first [written] bytes of the body. *)
Theorem write_failure_not_retried env R url start end_ partNum st k r
    written cause :
  (1 <= k <= R)%nat ->
  NewRequest env "GET" url = None ->
  (forall a, (1 <= a < k)%nat ->
     failedAttempt (DoGet env partNum a start end_) = true) ->
  DoGet env partNum k start end_ = DoOk r ->
  failedAttempt (DoOk r) = false ->
  OsCreate env (tempFileName partNum) = None ->
  BodyCopyFault env partNum = Some (written, cause) ->
  let res := downloadPart env R url start end_ partNum st in
  res.1 = Returned
  /\ errChan res.2 = errChan st ++ [ErrPartWriteTemp partNum cause]
  /\ tempFiles res.2 = tempFiles st
  /\ fs res.2 = <[tempFile env partNum := take written (Body r)]> (fs st)
  /\ exists tr, trace res.2 = trace st ++ tr /\ getCount tr = k.
Proof.
  intros Hk Hreq Hfail Hget Hok Hcreate Hcopy res. subst res.
  destruct (retryLoop_accepts env R url start end_ partNum R 1 None st k r
              ltac:(lia) Hk Hreq Hfail Hget Hok)
    as (H1 & H2 & H3 & H4 & tr & H5 & H6).
  unfold downloadPart.
  destruct (retryLoop env R url start end_ partNum R 1 None st) as [ex st1].
  cbn [fst snd] in *. subst ex. rewrite Hcreate, Hcopy. cbn [fst snd].
  split; [done|]. split; [cbn; congruence|]. split; [cbn; congruence|].
  split.
  - change (fs (appendFile env (tempFileName partNum) (take written (Body r))
                  (createFile env (tempFileName partNum) st1))
            = <[tempFile env partNum:=take written (Body r)]> (fs st)).
    by rewrite appendFile_created, H2.
  - exists (tr ++ [EvCreate (tempFileName partNum);
                   EvSendErr (ErrPartWriteTemp partNum cause);
                   EvCloseBody partNum]).
    split.
    + cbn -[tempFileName]. rewrite H5. by rewrite <- !app_assoc.
    + rewrite getCount_app. cbn [getCount]. rewrite Nat.add_0_r.
      rewrite <- getCount_netEvents, H6, getCount_app. cbn [getCount].
      rewrite getCount_attemptsWithPause. lia.
Qed.

(** Part 1 of the five-byte example; the disk is full at once. *)
Lemma write_failure_not_retried_witness :
  let res := downloadPart (diskFull 1 0 fiveEnv) MAX_RETRIES exampleURL
               0 0 1 emptyState in
  res.1 = Returned
  /\ errChan res.2 = [ErrPartWriteTemp 1 "no space left on device"]
  /\ tempFiles res.2 = []
  /\ fs res.2 = {[ tempFile (diskFull 1 0 fiveEnv) 1 := [] ]}
  /\ exists tr, trace res.2 = [] ++ tr /\ getCount tr = 1%nat.
Proof.
  apply (write_failure_not_retried (diskFull 1 0 fiveEnv) MAX_RETRIES
           exampleURL 0 0 1 emptyState 1
           (mkResponse StatusPartialContent "206 Partial Content"
              [Byte.x61]) 0 "no space left on device").
  - unfold MAX_RETRIES; lia.
  - reflexivity.
  - intros a Ha. lia.
  - reflexivity.
  - reflexivity.
  - reflexivity.
  - reflexivity.
Defined.

(** The network calls and the pauses of a call are those of its loop. *)
Lemma downloadPart_trace_bounds env R url start end_ partNum st :
  (1 <= R)%nat ->
  let res := downloadPart env R url start end_ partNum st in
  exists tr, trace res.2 = trace st ++ tr
    /\ (getCount tr <= R)%nat
    /\ (2 * sleepTotal tr <= R * (R - 1))%nat.
Proof.
  intros HR res. subst res.
  destruct (retryLoop_bounds env R url start end_ partNum R 1 None st HR
              ltac:(lia)) as (tr & H1 & H2 & H3).
  assert (H3' : (2 * sleepTotal tr <= R * (R - 1))%nat) by nia.
  assert (Hmore : forall st' extra,
            trace st' = trace st ++ tr ++ extra ->
            getCount extra = 0%nat -> sleepTotal extra = 0%nat ->
            exists tr', trace st' = trace st ++ tr'
              /\ (getCount tr' <= R)%nat
              /\ (2 * sleepTotal tr' <= R * (R - 1))%nat).
  { intros st' extra Htr Hc Hs. exists (tr ++ extra). split; [done|].
    rewrite getCount_app, sleepTotal_app, Hc, Hs. lia. }
  unfold downloadPart.
  destruct (retryLoop env R url start end_ partNum R 1 None st)
    as [[|[resp|]] st1]; cbn [fst snd] in *.
  - apply (Hmore _ []); [by rewrite app_nil_r|done|done].
  - destruct (OsCreate env (tempFileName partNum)) as [cause|].
    { apply (Hmore _ [EvSendErr (ErrPartCreateTemp partNum cause);
                      EvCloseBody partNum]); [|done|done].
      cbn. rewrite H1. by rewrite <- !app_assoc. }
    destruct (BodyCopyFault env partNum) as [[written cause]|].
    + apply (Hmore _ [EvCreate (tempFileName partNum);
                      EvSendErr (ErrPartWriteTemp partNum cause);
                      EvCloseBody partNum]); [|done|done].
      cbn -[tempFileName]. rewrite H1. by rewrite <- !app_assoc.
    + apply (Hmore _ [EvCreate (tempFileName partNum);
                      EvSendTemp (tempFileName partNum);
                      EvCloseBody partNum]); [|done|done].
      cbn -[tempFileName]. rewrite H1. by rewrite <- !app_assoc.
  - apply (Hmore _ []); [by rewrite app_nil_r|done|done].
Qed.

(** X13. Whatever the network and the disk do, a call with a budget of
    [R >= 1] attempts makes at most [R] network calls and spends at most
    [R * (R - 1) / 2] seconds in its pauses: three seconds for the
    budget of the program. *)
Theorem retry_bounds env R url start end_ partNum st :
  (1 <= R)%nat ->
  let res := downloadPart env R url start end_ partNum st in
  exists tr, trace res.2 = trace st ++ tr
    /\ (getCount tr <= R)%nat
    /\ (2 * sleepTotal tr <= R * (R - 1))%nat.
Proof. apply downloadPart_trace_bounds. Qed.

Lemma retry_bounds_witness :
  let res := downloadPart (failingParts [1%nat] fiveEnv) MAX_RETRIES
               exampleURL 0 0 1 emptyState in
  exists tr, trace res.2 = [] ++ tr
    /\ (getCount tr <= MAX_RETRIES)%nat
    /\ (2 * sleepTotal tr <= MAX_RETRIES * (MAX_RETRIES - 1))%nat.
Proof.
  apply (retry_bounds (failingParts [1%nat] fiveEnv) MAX_RETRIES exampleURL
           0 0 1 emptyState).
  unfold MAX_RETRIES; lia.
Defined.

(** ** [downloadPart]: files and messages *)

(** X14. A call touches no file but the temporary file of its part:
    every other file holds after the call what it held before. *)
Theorem downloadPart_touches_only_its_file env R url start end_ partNum st
    file :
  (1 <= R)%nat -> file <> tempFile env partNum ->
  fs (downloadPart env R url start end_ partNum st).2 !! file = fs st !! file.
Proof.
  intros HR Hpath.
  destruct (downloadPart_cases env R url start end_ partNum st HR)
    as [_ [(err & _ & _ & _ & H)
          |(r & a & _ & _ & _ & _ & _ & _ & _ & H)]].
  - by apply H.
  - rewrite H. by apply lookup_insert_ne.
Qed.

Lemma downloadPart_touches_only_its_file_witness :
  fs (downloadPart fiveEnv MAX_RETRIES exampleURL 0 0 1
        {| fs := {[ fileOf fiveEnv "out/f.bin" := abc ]}; tempFiles := [];
           errChan := []; trace := [] |}).2 !! fileOf fiveEnv "out/f.bin"
  = Some abc.
Proof.
  exact (downloadPart_touches_only_its_file fiveEnv MAX_RETRIES exampleURL
           0 0 1
           {| fs := {[ fileOf fiveEnv "out/f.bin" := abc ]}; tempFiles := [];
              errChan := []; trace := [] |} (fileOf fiveEnv "out/f.bin")
           ltac:(unfold MAX_RETRIES; lia)
           (output_elsewhere fiveEnv "out/f.bin" ltac:(done) 1%nat)).
Defined.

(** X15. Two parts never share a temporary file: whatever the
    directory the program runs in, the temporary files of two different
    parts have two different names and are two different files. *)
Theorem part_files_distinct env p q :
  p <> q ->
  tempFileName p <> tempFileName q /\ tempFile env p <> tempFile env q.
Proof.
  intros Hpq. split.
  - intros Heq. by apply tempFileName_inj in Heq.
  - intros Heq. by apply tempFile_inj in Heq.
Qed.

Lemma part_files_distinct_witness :
  tempFileName 1 <> tempFileName 2 /\ tempFile fiveEnv 1 <> tempFile fiveEnv 2.
Proof. apply part_files_distinct. lia. Defined.

(** The output file is another matter: its name comes from the URL, and
    in the working directory it can be the temporary file of a part. *)
Example output_may_be_part_file :
  fileOf fiveEnv
    (outputPath fiveEnv
       {| ContentLegnth := "5"; ContentDisposition := ""; ContentType := "" |}
       "http://host/dir/part-1.tmp" ".")
  = tempFile fiveEnv 1.
Proof. reflexivity. Qed.

Lemma errorPart_message e p :
  errorPart e = Some p ->
  exists rest, errorMessage e = "part " +:+ pretty p +:+ ": " +:+ rest.
Proof.
  destruct e; cbn [errorPart]; intros [= <-]; cbn [errorMessage];
    eexists; reflexivity.
Qed.

(** X16. Every error that a call puts on [errChan] names its part: its
    text starts with [part <partNum>: ]. *)
Theorem part_error_names_part env R url start end_ partNum st e :
  (1 <= R)%nat ->
  errChan (downloadPart env R url start end_ partNum st).2
  = errChan st ++ [e] ->
  exists rest,
    errorMessage e = "part " +:+ pretty partNum +:+ ": " +:+ rest.
Proof.
  intros HR He.
  destruct (downloadPart_cases env R url start end_ partNum st HR)
    as [_ [(err & H1 & _ & H3 & _)
          |(r & a & _ & _ & _ & _ & _ & H1 & _)]].
  - rewrite H1 in He. apply app_inv_head in He. injection He as <-.
    by apply errorPart_message.
  - rewrite H1 in He. rewrite <- (app_nil_r (errChan st)) in He at 1.
    apply app_inv_head in He. done.
Qed.

Lemma part_error_names_part_witness :
  exists rest,
    errorMessage (ErrPartStatus 1 "500 Internal Server Error")
    = "part " +:+ pretty 1%nat +:+ ": " +:+ rest.
Proof.
  apply (part_error_names_part (failingParts [1%nat] fiveEnv) MAX_RETRIES
           exampleURL 0 0 1 emptyState).
  - unfold MAX_RETRIES; lia.
  - reflexivity.
Defined.

(** ** [downloadFile]: the files after the goroutines *)

Section RunFiles.

Variables (env : Env) (R : nat) (url : string) (ranges : list (Z * Z)).
Hypothesis budget : (1 <= R)%nat.

Lemma partFS_other p file :
  file <> tempFile env p -> partFS env R url ranges p !! file = None.
Proof.
  intros Hpath. unfold partFS.
  destruct (ranges !! (p - 1)%nat) as [[start end_]|]; [|done].
  destruct (1 <=? p)%nat; [|done].
  by apply (downloadPart_alone env R url budget start end_ p).
Qed.

(** One goroutine: its files are added, its error, if any, is queued. *)
Lemma runParts_cons p sched st :
  exists st1,
    runParts env R url ranges (p :: sched) st
    = runParts env R url ranges sched st1
    /\ fs st1 = partFS env R url ranges p ∪ fs st
    /\ errChan st1
       = errChan st ++ option_list (partError env R url ranges p).
Proof.
  cbn [runParts]. unfold partFS, partError.
  destruct (ranges !! (p - 1)%nat) as [[start end_]|];
    [|exists st; by rewrite (left_id_L ∅ (∪)), app_nil_r].
  destruct (1 <=? p)%nat;
    [|exists st; by rewrite (left_id_L ∅ (∪)), app_nil_r].
  rewrite downloadPart_frame. cbn zeta.
  destruct (downloadPart_alone env R url budget start end_ p)
    as (Hret & Herr & _).
  destruct (downloadPart env R url start end_ p emptyState) as [ex d].
  cbn [fst snd] in *. subst ex. exists (addState st d).
  split; [done|]. split; [done|]. cbn [errChan addState]. by rewrite <- Herr.
Qed.

Lemma runParts_fs_other sched st file :
  (forall p, p ∈ sched -> file <> tempFile env p) ->
  fs (runParts env R url ranges sched st).2 !! file = fs st !! file.
Proof.
  revert st. induction sched as [|p sched' IH]; intros st Hother; [done|].
  destruct (runParts_cons p sched' st) as (st1 & -> & Hfs & _).
  rewrite IH by (intros q Hq; apply Hother, elem_of_cons; by right).
  rewrite Hfs, lookup_union_r; [done|].
  apply partFS_other, Hother, elem_of_cons. by left.
Qed.

(** After the goroutines, the temporary file of a part is what the part
    left, over what the path held before the run. *)
Lemma runParts_fs_temp sched st p :
  NoDup sched -> p ∈ sched ->
  fs (runParts env R url ranges sched st).2 !! tempFile env p
  = (partFS env R url ranges p ∪ fs st) !! tempFile env p.
Proof.
  revert st. induction sched as [|q sched' IH]; intros st Hnd Hp;
    [by inv Hp|].
  apply NoDup_cons in Hnd as [Hq Hnd].
  destruct (runParts_cons q sched' st) as (st1 & -> & Hfs & _).
  apply elem_of_cons in Hp as [->|Hp].
  - rewrite runParts_fs_other; [by rewrite Hfs|].
    intros p' Hp' Heq. apply tempFile_inj in Heq. by subst.
  - rewrite IH by done.
    assert (Hne : tempFile env p <> tempFile env q).
    { intros Heq. apply tempFile_inj in Heq. by subst. }
    destruct (partFS env R url ranges p !! tempFile env p) as [data|] eqn:Hd.
    + by rewrite !(lookup_union_Some_l _ _ _ data).
    + rewrite !lookup_union_r by done.
      rewrite Hfs, lookup_union_r; [done|]. by apply partFS_other.
Qed.

Lemma runParts_errChan sched st :
  (runParts env R url ranges sched st).1 = Returned
  /\ errChan (runParts env R url ranges sched st).2
     = errChan st ++ errorsInOrder env R url ranges sched.
Proof.
  destruct (runParts_errors env R url ranges budget sched st) as (H1 & H2 & _).
  done.
Qed.

(** A part that reports no error has a temporary file. *)
Lemma partArtifact_of_success p start end_ :
  (1 <= p)%nat -> ranges !! (p - 1)%nat = Some (start, end_) ->
  partError env R url ranges p = None ->
  is_Some (partArtifact env R url ranges p).
Proof.
  intros Hp Hrange. unfold partError, partArtifact, partFS. rewrite Hrange.
  destruct (Nat.leb_spec 1 p); [|lia].
  destruct (downloadPart_cases env R url start end_ p emptyState budget)
    as [_ [(err & H1 & _)|(r & a & _ & _ & _ & _ & _ & _ & _ & H3)]].
  - rewrite H1. done.
  - intros _. rewrite H3, lookup_insert_eq. by eexists.
Qed.

Lemma errorsInOrder_nil sched p :
  errorsInOrder env R url ranges sched = [] -> p ∈ sched ->
  partError env R url ranges p = None.
Proof.
  intros Hnil Hp.
  destruct (partError env R url ranges p) as [e|] eqn:He; [|done].
  assert (e ∈ errorsInOrder env R url ranges sched) as Hin.
  { apply list_elem_of_omap. by exists p. }
  rewrite Hnil in Hin. by inv Hin.
Qed.

End RunFiles.

(** ** [downloadFile]: failures leave the part files *)

(** X17. No cleanup after a failed part.  When a part fails, the run
    returns its error at once: the temporary file of every other part
    that has written one is still there when [downloadFile] returns. *)
Theorem failure_keeps_part_files env N R sched url filepath fs0
    fHeaders totalSize e p data :
  (1 <= R)%nat ->
  getFileHeaders env url = Ok fHeaders ->
  getFileSize env url = Ok totalSize ->
  NoDup sched -> p ∈ sched ->
  head (errorsInOrder env R url (planRanges N totalSize) sched) = Some e ->
  partArtifact env R url (planRanges N totalSize) p = Some data ->
  let run := downloadFile env N R sched url filepath fs0 in
  run.1 = Done (Some e) /\ fs run.2 !! tempFile env p = Some data.
Proof.
  intros HR Hhead Hsize Hnd Hp Hfirst Hart run. subst run.
  unfold downloadFile. rewrite Hhead, Hsize.
  set (st0 := {| fs := fs0; tempFiles := []; errChan := []; trace := [] |}).
  destruct (runParts_errChan env R url (planRanges N totalSize) HR sched st0)
    as [H1 H2].
  pose proof (runParts_fs_temp env R url (planRanges N totalSize) HR
                sched st0 p Hnd Hp) as H3.
  destruct (runParts env R url (planRanges N totalSize) sched st0)
    as [ex st].
  cbn [fst snd] in *. subst ex. cbn [errChan st0 app] in H2. rewrite H2.
  destruct (errorsInOrder env R url (planRanges N totalSize) sched)
    as [|e' errs]; [done|].
  cbn in Hfirst. injection Hfirst as ->. cbn [fst snd].
  split; [done|]. rewrite H3.
  by apply lookup_union_Some_l.
Qed.

(** Part 1 of the five-byte example fails, part 2 has ended before. *)
Lemma failure_keeps_part_files_witness :
  let run := downloadFile (failingParts [1%nat] fiveEnv) NUM_PARTS
               MAX_RETRIES [2; 1; 3; 4]%nat exampleURL "out" ∅ in
  run.1 = Done (Some (ErrPartStatus 1 "500 Internal Server Error"))
  /\ fs run.2 !! tempFile (failingParts [1%nat] fiveEnv) 2 = Some [Byte.x62].
Proof.
  apply (failure_keeps_part_files (failingParts [1%nat] fiveEnv) NUM_PARTS
           MAX_RETRIES [2; 1; 3; 4]%nat exampleURL "out" ∅
           {| ContentLegnth := "5"; ContentDisposition := "";
              ContentType := "" |} 5).
  - unfold MAX_RETRIES; lia.
  - reflexivity.
  - reflexivity.
  - compute_done.
  - compute_done.
  - reflexivity.
  - reflexivity.
Defined.

(** ** [downloadFile]: assembly *)

(** When no part reports an error, [downloadFile] comes to the creation
    of the output file with every temporary file in place and every
    other file as it was. *)
Lemma downloadFile_before_assembly env N R sched url filepath fs0 fHeaders
    totalSize :
  (1 <= R)%nat ->
  sched ≡ₚ seq 1 N ->
  getFileHeaders env url = Ok fHeaders ->
  getFileSize env url = Ok totalSize ->
  errorsInOrder env R url (planRanges N totalSize) sched = [] ->
  let path := outputPath env fHeaders url filepath in
  exists (st : State) (artifact : nat -> list byte),
    (forall p, (1 <= p <= N)%nat ->
       partArtifact env R url (planRanges N totalSize) p = Some (artifact p))
    /\ (forall p, (1 <= p <= N)%nat ->
          fs st !! tempFile env p = Some (artifact p))
    /\ (forall file, (forall p, (1 <= p <= N)%nat -> file <> tempFile env p) ->
          fs st !! file = fs0 !! file)
    /\ downloadFile env N R sched url filepath fs0
       = match OsCreate env path with
         | Some cause => (Done (Some (ErrCreateOutput cause)), st)
         | None =>
             match assemble env path (seq 1 N) [] (createFile env path st) with
             | (AssembleFailed e, st') => (Done (Some e), st')
             | (Assembled, st') => (Done None, st')
             | (AssembleHangs, st') => (Hangs, st')
             end
         end.
Proof.
  intros HR Hperm Hhead Hsize Hnone path.
  unfold downloadFile. rewrite Hhead, Hsize.
  set (ranges := planRanges N totalSize) in *.
  set (st0 := {| fs := fs0; tempFiles := []; errChan := []; trace := [] |}).
  assert (Hnd : NoDup sched) by (rewrite Hperm; apply NoDup_seq).
  assert (Hin : forall p, p ∈ sched <-> (1 <= p <= N)%nat).
  { intros p. rewrite Hperm, elem_of_seq. lia. }
  set (artifact := fun p => default [] (partArtifact env R url ranges p)).
  assert (Hart : forall p, (1 <= p <= N)%nat ->
            partArtifact env R url ranges p = Some (artifact p)).
  { intros p Hp. subst artifact. cbn beta.
    destruct (planRange N totalSize (p - 1)) as [start end_] eqn:Hplan.
    destruct (partArtifact_of_success env R url ranges HR p start end_)
      as [data Hdata]; [lia| | |by rewrite Hdata].
    - subst ranges. rewrite planRanges_lookup by lia. by rewrite Hplan.
    - apply (errorsInOrder_nil env R url ranges sched); [done|by apply Hin]. }
  destruct (runParts_errChan env R url ranges HR sched st0) as [H1 H2].
  assert (H3 : forall p, (1 <= p <= N)%nat ->
            fs (runParts env R url ranges sched st0).2 !! tempFile env p
            = Some (artifact p)).
  { intros p Hp.
    rewrite (runParts_fs_temp env R url ranges HR sched st0 p Hnd)
      by (by apply Hin).
    apply lookup_union_Some_l. by apply Hart. }
  assert (H4 : forall file,
            (forall p, (1 <= p <= N)%nat -> file <> tempFile env p) ->
            fs (runParts env R url ranges sched st0).2 !! file = fs0 !! file).
  { intros file Hfile.
    rewrite (runParts_fs_other env R url ranges HR sched st0 file); [done|].
    intros p Hp. by apply Hfile, Hin. }
  destruct (runParts env R url ranges sched st0) as [ex st].
  cbn [fst snd] in *. subst ex. rewrite H2, Hnone. cbn [errChan st0 app].
  by exists st, artifact.
Qed.

(** When no part reports an error, nothing fails locally and the output
    file is none of the temporary files, the output file is the
    temporary files of the parts [1 .. N], one after the other, and the
    temporary files are removed. *)
Lemma downloadFile_assembles env N R sched url filepath fs0 fHeaders
    totalSize :
  (1 <= R)%nat ->
  sched ≡ₚ seq 1 N ->
  getFileHeaders env url = Ok fHeaders ->
  getFileSize env url = Ok totalSize ->
  errorsInOrder env R url (planRanges N totalSize) sched = [] ->
  OsCreate env (outputPath env fHeaders url filepath) = None ->
  (forall i, AssembleCopyFault env i = None) ->
  (forall p, (1 <= p <= N)%nat ->
     fileOf env (outputPath env fHeaders url filepath) <> tempFile env p) ->
  let run := downloadFile env N R sched url filepath fs0 in
  let out := fileOf env (outputPath env fHeaders url filepath) in
  run.1 = Done None
  /\ exists artifact : nat -> list byte,
       (forall p, (1 <= p <= N)%nat ->
          partArtifact env R url (planRanges N totalSize) p
          = Some (artifact p))
       /\ fs run.2 !! out = Some (concat (map artifact (seq 1 N)))
       /\ (forall p, (1 <= p <= N)%nat ->
             fs run.2 !! tempFile env p = None).
Proof.
  intros HR Hperm Hhead Hsize Hnone Hcreate Hfault Hfree run out. subst run.
  destruct (downloadFile_before_assembly env N R sched url filepath fs0
              fHeaders totalSize HR Hperm Hhead Hsize Hnone)
    as (st & artifact & H1 & H2 & H3 & ->).
  cbn zeta. rewrite Hcreate.
  set (path := outputPath env fHeaders url filepath) in *.
  assert (Hseq : forall p, p ∈ seq 1 N -> (1 <= p <= N)%nat).
  { intros p Hp. apply elem_of_seq in Hp. lia. }
  assert (Hcreated : fs (createFile env path st) = <[out := []]> (fs st))
    by done.
  destruct (assemble_concat env path artifact (seq 1 N) []
              (createFile env path st) (NoDup_seq 1 N))
    as (A1 & A2 & A3 & _).
  { intros p Hp. apply Hfree. by apply Hseq. }
  { intros p _. apply Hfault. }
  { rewrite Hcreated. apply lookup_insert_eq. }
  { intros p Hp. rewrite Hcreated.
    rewrite lookup_insert_ne by (apply Hfree; by apply Hseq).
    apply H2. by apply Hseq. }
  destruct (assemble env path (seq 1 N) [] (createFile env path st))
    as [ex st'].
  cbn [fst snd] in *. subst ex. cbn iota beta. cbn [fst snd].
  split; [done|]. exists artifact. split; [done|]. split; [exact A2|].
  intros p Hp. apply A3, elem_of_seq. lia.
Qed.

(** X18. Assembly in the order of the part numbers.  Whatever the
    server sends and whatever the order in which the goroutines end:
    when no part reports an error, nothing fails locally and the output
    path leads to none of the temporary files of the parts,
    [downloadFile] returns [nil], the output file is the concatenation
    of the temporary files of the parts [1], [2], ..., [N], and those
    files are removed. *)
Theorem assembly_in_part_order env N R sched url filepath fs0 fHeaders
    totalSize :
  (1 <= R)%nat ->
  sched ≡ₚ seq 1 N ->
  getFileHeaders env url = Ok fHeaders ->
  getFileSize env url = Ok totalSize ->
  errorsInOrder env R url (planRanges N totalSize) sched = [] ->
  OsCreate env (outputPath env fHeaders url filepath) = None ->
  (forall i, AssembleCopyFault env i = None) ->
  (forall p, (1 <= p <= N)%nat ->
     fileOf env (outputPath env fHeaders url filepath) <> tempFile env p) ->
  let run := downloadFile env N R sched url filepath fs0 in
  let out := fileOf env (outputPath env fHeaders url filepath) in
  run.1 = Done None
  /\ exists artifact : nat -> list byte,
       (forall p, (1 <= p <= N)%nat ->
          partArtifact env R url (planRanges N totalSize) p
          = Some (artifact p))
       /\ fs run.2 !! out = Some (concat (map artifact (seq 1 N)))
       /\ (forall p, (1 <= p <= N)%nat ->
             fs run.2 !! tempFile env p = None).
Proof. apply downloadFile_assembles. Qed.

(** The five-byte example on the server that ignores [Range]. *)
Lemma assembly_in_part_order_witness :
  let run := downloadFile deafEnv NUM_PARTS MAX_RETRIES [3; 1; 4; 2]%nat
               exampleURL "out" ∅ in
  run.1 = Done None
  /\ exists artifact : nat -> list byte,
       (forall p, (1 <= p <= NUM_PARTS)%nat ->
          partArtifact deafEnv MAX_RETRIES exampleURL
            (planRanges NUM_PARTS 5) p = Some (artifact p))
       /\ fs run.2 !! fileOf deafEnv "out/f.bin"
          = Some (concat (map artifact (seq 1 NUM_PARTS)))
       /\ (forall p, (1 <= p <= NUM_PARTS)%nat ->
             fs run.2 !! tempFile deafEnv p = None).
Proof.
  apply (assembly_in_part_order deafEnv NUM_PARTS MAX_RETRIES
           [3; 1; 4; 2]%nat exampleURL "out" ∅
           {| ContentLegnth := "5"; ContentDisposition := "";
              ContentType := "" |} 5).
  - unfold MAX_RETRIES; lia.
  - change (seq 1 NUM_PARTS) with ([1; 2] ++ 3 :: [4])%nat.
    apply Permutation_cons_app. cbn [app]. apply perm_skip, perm_swap.
  - reflexivity.
  - reflexivity.
  - reflexivity.
  - reflexivity.
  - intros i. reflexivity.
  - intros p _. by apply output_elsewhere.
Defined.

(** A part whose first attempt is accepted, without local failure,
    reports no error and leaves the body of that response. *)
Lemma part_first_attempt_accepted env R url ranges p start end_ r :
  (1 <= R)%nat -> (1 <= p)%nat ->
  ranges !! (p - 1)%nat = Some (start, end_) ->
  NewRequest env "GET" url = None ->
  DoGet env p 1 start end_ = DoOk r ->
  failedAttempt (DoOk r) = false ->
  OsCreate env (tempFileName p) = None ->
  BodyCopyFault env p = None ->
  partError env R url ranges p = None
  /\ partArtifact env R url ranges p = Some (Body r).
Proof.
  intros HR Hp Hrange Hreq Hget Hok Hcreate Hcopy.
  unfold partError, partArtifact, partFS. rewrite Hrange.
  destruct (Nat.leb_spec 1 p); [|lia].
  destruct (retryLoop_accepts env R url start end_ p R 1 None emptyState 1 r
              ltac:(lia) ltac:(lia) Hreq ltac:(intros; lia) Hget Hok)
    as (H1 & H2 & H3 & H4 & _).
  unfold downloadPart.
  destruct (retryLoop env R url start end_ p R 1 None emptyState)
    as [ex st1].
  cbn [fst snd] in *. subst ex. rewrite Hcreate, Hcopy. cbn [fst snd].
  split.
  - cbn. by rewrite H4.
  - change (fs (appendFile env (tempFileName p) (Body r)
                  (createFile env (tempFileName p) st1)) !! tempFile env p
            = Some (Body r)).
    by rewrite appendFile_created, lookup_insert_eq.
Qed.

Lemma errorsInOrder_none env R url ranges sched :
  (forall p, p ∈ sched -> partError env R url ranges p = None) ->
  errorsInOrder env R url ranges sched = [].
Proof.
  induction sched as [|p sched' IH]; intros H; [done|].
  unfold errorsInOrder in *. cbn [omap list_omap].
  rewrite (H p) by (apply elem_of_cons; by left).
  apply IH. intros q Hq. apply H, elem_of_cons. by right.
Qed.

Lemma concat_map_const {A} (x : list A) (l : list nat) :
  concat (map (fun _ => x) l) = concat (replicate (length l) x).
Proof. induction l as [|i l IH]; cbn; [done|]. by rewrite IH. Qed.

(** X19. A server that ignores [Range].  When every request of a part
    is answered with status 200 and the whole content, nothing fails
    locally and the output path leads to none of the temporary files of
    the parts, [downloadFile] returns [nil] and the output file holds
    the content [N] times over. *)
Theorem whole_content_is_repeated env N R sched url filepath fs0 fHeaders
    totalSize (content : list byte) :
  (1 <= R)%nat ->
  sched ≡ₚ seq 1 N ->
  getFileHeaders env url = Ok fHeaders ->
  getFileSize env url = Ok totalSize ->
  NewRequest env "GET" url = None ->
  (forall p start end_, exists r,
      DoGet env p 1 start end_ = DoOk r
      /\ StatusCode r = StatusOK /\ Body r = content) ->
  (forall path, OsCreate env path = None) ->
  (forall p, BodyCopyFault env p = None) ->
  (forall i, AssembleCopyFault env i = None) ->
  (forall p, (1 <= p <= N)%nat ->
     fileOf env (outputPath env fHeaders url filepath) <> tempFile env p) ->
  let run := downloadFile env N R sched url filepath fs0 in
  run.1 = Done None
  /\ fs run.2 !! fileOf env (outputPath env fHeaders url filepath)
     = Some (concat (replicate N content)).
Proof.
  intros HR Hperm Hhead Hsize Hreq Hdeaf Hcreate Hbody Hfault Hfree run.
  assert (Hpart : forall p, (1 <= p <= N)%nat ->
            partError env R url (planRanges N totalSize) p = None
            /\ partArtifact env R url (planRanges N totalSize) p
               = Some content).
  { intros p Hp.
    destruct (planRange N totalSize (p - 1)) as [start end_] eqn:Hplan.
    destruct (Hdeaf p start end_) as (r & Hget & Hst & Hb).
    rewrite <- Hb.
    apply (part_first_attempt_accepted env R url _ p start end_ r);
      try done; try lia.
    - rewrite planRanges_lookup by lia. by rewrite Hplan.
    - cbn. rewrite Hst. done. }
  destruct (downloadFile_assembles env N R sched url filepath fs0 fHeaders
              totalSize HR Hperm Hhead Hsize)
    as (H1 & artifact & H2 & H3 & _); [|done|done|done|].
  { apply errorsInOrder_none. intros p Hp. apply Hpart.
    rewrite Hperm in Hp. apply elem_of_seq in Hp. lia. }
  fold run in H1, H3. split; [done|]. rewrite H3. f_equal.
  replace (replicate N content)
    with (replicate (length (seq 1 N)) content) by (by rewrite length_seq).
  rewrite <- concat_map_const.
  f_equal. apply map_ext_in. intros p Hp.
  apply list_elem_of_In, elem_of_seq in Hp.
  destruct (Hpart p ltac:(lia)) as [_ Hc]. rewrite H2 in Hc by lia.
  by injection Hc.
Qed.

Lemma whole_content_is_repeated_witness :
  let run := downloadFile deafEnv NUM_PARTS MAX_RETRIES [3; 1; 4; 2]%nat
               exampleURL "out" ∅ in
  run.1 = Done None
  /\ fs run.2 !! fileOf deafEnv "out/f.bin"
     = Some (concat (replicate NUM_PARTS abcde)).
Proof.
  apply (whole_content_is_repeated deafEnv NUM_PARTS MAX_RETRIES
           [3; 1; 4; 2]%nat exampleURL "out" ∅
           {| ContentLegnth := "5"; ContentDisposition := "";
              ContentType := "" |} 5 abcde).
  - unfold MAX_RETRIES; lia.
  - change (seq 1 NUM_PARTS) with ([1; 2] ++ 3 :: [4])%nat.
    apply Permutation_cons_app. cbn [app]. apply perm_skip, perm_swap.
  - reflexivity.
  - reflexivity.
  - reflexivity.
  - intros p start end_. eexists. repeat split.
  - intros path. reflexivity.
  - intros p. reflexivity.
  - intros i. reflexivity.
  - intros p _. by apply output_elsewhere.
Defined.

(** ** [downloadFile]: the order of the goroutines *)

Lemma assemble_fs_only env out parts written st1 st2 :
  fs st1 = fs st2 ->
  (assemble env out parts written st1).1
  = (assemble env out parts written st2).1
  /\ fs (assemble env out parts written st1).2
     = fs (assemble env out parts written st2).2.
Proof.
  revert written st1 st2.
  induction parts as [|i parts' IH]; intros written st1 st2 Hfs; [done|].
  assert (Hw : forall content,
            fs (writeOutput env out content st1)
            = fs (writeOutput env out content st2)).
  { intros content. unfold writeOutput. rewrite Hfs.
    destruct (fs st2 !! fileOf env out); cbn; by rewrite ?Hfs. }
  cbn [assemble]. rewrite Hfs.
  destruct (fs st2 !! fileOf env (tempFileName i)) as [data|]; [|done].
  destruct (bool_decide _ && negb _);
    destruct (AssembleCopyFault env i) as [[copied cause]|]; cbn [fst snd].
  - split; [done|]. apply Hw.
  - done.
  - split; [done|]. apply Hw.
  - apply IH. unfold removeFile. cbn. by rewrite Hw.
Qed.

(** X20. The order in which the goroutines end does not matter when no
    part fails: two runs that differ in that order only return the same
    value and leave the same files. *)
Theorem schedule_independence env N R sched1 sched2 url filepath fs0
    fHeaders totalSize :
  (1 <= R)%nat ->
  NoDup sched1 -> sched1 ≡ₚ sched2 ->
  getFileHeaders env url = Ok fHeaders ->
  getFileSize env url = Ok totalSize ->
  errorsInOrder env R url (planRanges N totalSize) sched1 = [] ->
  let run1 := downloadFile env N R sched1 url filepath fs0 in
  let run2 := downloadFile env N R sched2 url filepath fs0 in
  run1.1 = run2.1 /\ fs run1.2 = fs run2.2.
Proof.
  intros HR Hnd Hperm Hhead Hsize Hnone run1 run2. subst run1 run2.
  unfold downloadFile. rewrite Hhead, Hsize.
  set (ranges := planRanges N totalSize) in *.
  set (st0 := {| fs := fs0; tempFiles := []; errChan := []; trace := [] |}).
  assert (Hnd2 : NoDup sched2) by (by rewrite <- Hperm).
  assert (Hnone2 : errorsInOrder env R url ranges sched2 = []).
  { apply errorsInOrder_none. intros p Hp.
    apply (errorsInOrder_nil env R url ranges sched1); [done|].
    by rewrite Hperm. }
  destruct (runParts_errChan env R url ranges HR sched1 st0) as [A1 A2].
  destruct (runParts_errChan env R url ranges HR sched2 st0) as [B1 B2].
  assert (Hfs : fs (runParts env R url ranges sched1 st0).2
                = fs (runParts env R url ranges sched2 st0).2).
  { apply map_eq. intros path.
    destruct (decide (Exists (fun p => path = tempFile env p) sched1))
      as [Hex|Hno].
    - apply Exists_exists in Hex as (p & Hp & ->).
      rewrite (runParts_fs_temp env R url ranges HR sched1 st0 p) by done.
      rewrite (runParts_fs_temp env R url ranges HR sched2 st0 p);
        [done|done|by rewrite <- Hperm].
    - rewrite (runParts_fs_other env R url ranges HR sched1 st0 path)
        by (intros p Hp Heq; apply Hno, Exists_exists; by exists p).
      rewrite (runParts_fs_other env R url ranges HR sched2 st0 path);
        [done|].
      intros p Hp Heq. apply Hno, Exists_exists. exists p.
      split; [by rewrite Hperm|done]. }
  destruct (runParts env R url ranges sched1 st0) as [ex1 st1].
  destruct (runParts env R url ranges sched2 st0) as [ex2 st2].
  cbn [fst snd] in *. subst ex1 ex2.
  rewrite A2, B2, Hnone, Hnone2. cbn [errChan st0 app].
  destruct (OsCreate env (outputPath env fHeaders url filepath));
    [done|].
  destruct (assemble_fs_only env (outputPath env fHeaders url filepath)
              (seq 1 N) []
              (createFile env (outputPath env fHeaders url filepath) st1)
              (createFile env (outputPath env fHeaders url filepath) st2))
    as [C1 C2].
  { cbn. by rewrite Hfs. }
  destruct (assemble env (outputPath env fHeaders url filepath) (seq 1 N) []
              (createFile env (outputPath env fHeaders url filepath) st1))
    as [e1 s1].
  destruct (assemble env (outputPath env fHeaders url filepath) (seq 1 N) []
              (createFile env (outputPath env fHeaders url filepath) st2))
    as [e2 s2].
  cbn [fst snd] in *. subst e2. by destruct e1.
Qed.

Lemma schedule_independence_witness :
  let run1 := downloadFile fiveEnv NUM_PARTS MAX_RETRIES [1; 2; 3; 4]%nat
                exampleURL "out" ∅ in
  let run2 := downloadFile fiveEnv NUM_PARTS MAX_RETRIES [4; 3; 2; 1]%nat
                exampleURL "out" ∅ in
  run1.1 = run2.1 /\ fs run1.2 = fs run2.2.
Proof.
  apply (schedule_independence fiveEnv NUM_PARTS MAX_RETRIES
           [1; 2; 3; 4]%nat [4; 3; 2; 1]%nat exampleURL "out" ∅
           {| ContentLegnth := "5"; ContentDisposition := "";
              ContentType := "" |} 5).
  - unfold MAX_RETRIES; lia.
  - compute_done.
  - apply (Permutation_rev [1; 2; 3; 4]%nat).
  - reflexivity.
  - reflexivity.
  - reflexivity.
Defined.

(** ** [downloadFile]: local failures after the download *)

(** X21. The destination is looked at last.  When every part has been
    fetched and the output file cannot be created - a destination that
    does not exist, say - [downloadFile] returns that error, and the
    temporary files of all the [N] parts are left where they are.  The
    output path holds what it held before the run, unless it leads to
    one of those temporary files. *)
Theorem output_create_failure env N R sched url filepath fs0 fHeaders
    totalSize cause :
  (1 <= R)%nat ->
  sched ≡ₚ seq 1 N ->
  getFileHeaders env url = Ok fHeaders ->
  getFileSize env url = Ok totalSize ->
  errorsInOrder env R url (planRanges N totalSize) sched = [] ->
  OsCreate env (outputPath env fHeaders url filepath) = Some cause ->
  let run := downloadFile env N R sched url filepath fs0 in
  let out := fileOf env (outputPath env fHeaders url filepath) in
  run.1 = Done (Some (ErrCreateOutput cause))
  /\ (forall p, (1 <= p <= N)%nat ->
        fs run.2 !! tempFile env p
        = partArtifact env R url (planRanges N totalSize) p
        /\ is_Some (fs run.2 !! tempFile env p))
  /\ ((forall p, (1 <= p <= N)%nat -> out <> tempFile env p) ->
      fs run.2 !! out = fs0 !! out).
Proof.
  intros HR Hperm Hhead Hsize Hnone Hcreate run out. subst run.
  destruct (downloadFile_before_assembly env N R sched url filepath fs0
              fHeaders totalSize HR Hperm Hhead Hsize Hnone)
    as (st & artifact & H1 & H2 & H3 & ->).
  cbn zeta. rewrite Hcreate. cbn [fst snd]. split; [done|]. split.
  - intros p Hp. rewrite H1, H2 by done. split; [done|]. by eexists.
  - intros Hfree. by apply H3.
Qed.

Lemma example_schedule : [3; 1; 4; 2]%nat ≡ₚ seq 1 NUM_PARTS.
Proof.
  change (seq 1 NUM_PARTS) with ([1; 2] ++ 3 :: [4])%nat.
  apply Permutation_cons_app. cbn [app]. apply perm_skip, perm_swap.
Qed.

(** The five-byte example, the destination directory is missing. *)
Lemma output_create_failure_witness :
  let env := missingDir "out" fiveEnv in
  let run := downloadFile env NUM_PARTS MAX_RETRIES [3; 1; 4; 2]%nat
               exampleURL "out" ∅ in
  run.1 = Done (Some (ErrCreateOutput "no such file or directory"))
  /\ (forall p, (1 <= p <= NUM_PARTS)%nat ->
        fs run.2 !! tempFile env p
        = partArtifact env MAX_RETRIES exampleURL (planRanges NUM_PARTS 5) p
        /\ is_Some (fs run.2 !! tempFile env p))
  /\ fs run.2 !! fileOf env "out/f.bin" = None.
Proof.
  destruct (output_create_failure (missingDir "out" fiveEnv) NUM_PARTS
              MAX_RETRIES [3; 1; 4; 2]%nat exampleURL "out" ∅
              {| ContentLegnth := "5"; ContentDisposition := "";
                 ContentType := "" |} 5 "no such file or directory"
              ltac:(unfold MAX_RETRIES; lia) example_schedule
              eq_refl eq_refl eq_refl eq_refl)
    as (H1 & H2 & H3).
  split; [exact H1|]. split; [exact H2|].
  refine (H3 _). intros p _. by apply output_elsewhere.
Defined.

Section AssembleFault.

Variables (env : Env) (out : string) (chunk : nat -> list byte).

Lemma writeOutput_other content st file :
  file <> fileOf env out ->
  fs (writeOutput env out content st) !! file = fs st !! file.
Proof.
  intros Hfile. unfold writeOutput.
  destruct (fs st !! fileOf env out); [|done].
  cbn. by rewrite lookup_insert_ne by (by apply not_eq_sym).
Qed.

(** The last loop leaves the temporary file of a part that is not in
    its list. *)
Lemma assemble_keeps q parts written st :
  q ∉ parts ->
  fileOf env out <> tempFile env q ->
  (forall p, p ∈ parts -> fileOf env out <> tempFile env p) ->
  fs (assemble env out parts written st).2 !! tempFile env q
  = fs st !! tempFile env q.
Proof.
  intros Hq Hout. revert written st.
  induction parts as [|j parts' IH]; intros written st Hne; [done|].
  apply not_elem_of_cons in Hq as [Hqj Hq].
  assert (Hj : fileOf env out <> tempFile env j)
    by (apply Hne, elem_of_cons; by left).
  destruct (fs st !! tempFile env j) as [data|] eqn:Hdata.
  - rewrite (assemble_step env out j parts' written st data) by done.
    destruct (AssembleCopyFault env j) as [[copied cause]|].
    + cbn [fst snd]. by rewrite writeOutput_other by (by apply not_eq_sym).
    + rewrite IH;
        [|done|intros p Hp; apply Hne, elem_of_cons; by right].
      unfold removeFile. cbn [fs setFS].
      rewrite lookup_delete_ne
        by (intros Heq; apply tempFile_inj in Heq; by subst).
      by rewrite writeOutput_other by (by apply not_eq_sym).
  - cbn [assemble]. unfold tempFile in Hdata. by rewrite Hdata.
Qed.

(** The last loop stops at the first copy that fails: the files before
    it are in the output file and removed, a part of the failing one is
    in the output file, and it and the files after it stay. *)
Lemma assemble_fault pre i post st written copied cause :
  NoDup (pre ++ i :: post) ->
  (forall p, p ∈ pre ++ i :: post -> fileOf env out <> tempFile env p) ->
  (forall j, j ∈ pre -> AssembleCopyFault env j = None) ->
  AssembleCopyFault env i = Some (copied, cause) ->
  fs st !! fileOf env out = Some written ->
  (forall p, p ∈ pre ++ i :: post ->
     fs st !! tempFile env p = Some (chunk p)) ->
  let res := assemble env out (pre ++ i :: post) written st in
  res.1 = AssembleFailed (ErrWriteOutput (tempFileName i) cause)
  /\ fs res.2 !! fileOf env out
     = Some (written ++ concat (map chunk pre) ++ take copied (chunk i))
  /\ (forall p, p ∈ pre -> fs res.2 !! tempFile env p = None)
  /\ (forall p, p ∈ i :: post ->
        fs res.2 !! tempFile env p = Some (chunk p)).
Proof.
  revert st written. induction pre as [|q pre' IH];
    intros st written Hnd Hne Hpre Hfault Hout Htemp.
  - cbn [app] in *. cbn zeta.
    assert (Hin : i ∈ i :: post) by (apply elem_of_cons; by left).
    rewrite (assemble_step env out i post written st (chunk i)) by auto.
    rewrite Hfault. cbn [fst snd]. split; [done|].
    rewrite (writeOutput_open env out _ st written Hout).
    split; [by rewrite lookup_insert_eq|].
    split; [intros p Hp; by inv Hp|].
    intros p Hp. rewrite lookup_insert_ne by auto. by apply Htemp.
  - cbn [app] in *. apply NoDup_cons in Hnd as [Hq Hnd].
    assert (Hin : q ∈ q :: pre' ++ i :: post) by (apply elem_of_cons; by left).
    assert (Htl : forall p, p ∈ pre' ++ i :: post ->
              p ∈ q :: pre' ++ i :: post)
      by (intros p Hp; apply elem_of_cons; by right).
    cbn zeta.
    rewrite (assemble_step env out q (pre' ++ i :: post) written st (chunk q))
      by auto.
    rewrite (Hpre q) by (apply elem_of_cons; by left).
    pose proof (assemble_round_fs env out q written (chunk q) st Hout)
      as Hfs1.
    set (st1 := removeFile env (tempFileName q)
                  (writeOutput env out (written ++ chunk q) st)) in *.
    destruct (IH st1 (written ++ chunk q) Hnd) as (H1 & H2 & H3 & H4).
    + auto.
    + intros j Hj. apply Hpre, elem_of_cons. by right.
    + done.
    + rewrite Hfs1, lookup_delete_ne by (intros Heq; by apply (Hne q)).
      by rewrite lookup_insert_eq.
    + intros p Hp. rewrite Hfs1.
      rewrite lookup_delete_ne
        by (intros Heq; apply tempFile_inj in Heq; by subst).
      rewrite lookup_insert_ne by auto. auto.
    + split; [done|]. split; [|split].
      * rewrite H2. cbn [map concat]. by rewrite <- !app_assoc.
      * intros p Hp. apply elem_of_cons in Hp as [->|Hp]; [|by apply H3].
        rewrite assemble_keeps by auto.
        rewrite Hfs1. apply lookup_delete_eq.
      * done.
Qed.

End AssembleFault.

(** X22. A failure in the middle of the assembly.  When every part has
    been fetched, the output path leads to none of the temporary files
    of the parts, and the copy of part [i] into the output file is the
    first one to fail, after [written] bytes: [downloadFile] returns
    that error; the output file holds the parts [1 .. i-1] and the
    first [written] bytes of part [i]; the temporary files of the parts
    before [i] are removed, those of the parts [i .. N] are left. *)
Theorem assembly_failure_leaves_partial_output env N R sched url filepath
    fs0 fHeaders totalSize i written cause :
  (1 <= R)%nat ->
  sched ≡ₚ seq 1 N ->
  getFileHeaders env url = Ok fHeaders ->
  getFileSize env url = Ok totalSize ->
  errorsInOrder env R url (planRanges N totalSize) sched = [] ->
  OsCreate env (outputPath env fHeaders url filepath) = None ->
  (forall p, (1 <= p <= N)%nat ->
     fileOf env (outputPath env fHeaders url filepath) <> tempFile env p) ->
  (1 <= i <= N)%nat ->
  (forall j, (j < i)%nat -> AssembleCopyFault env j = None) ->
  AssembleCopyFault env i = Some (written, cause) ->
  let run := downloadFile env N R sched url filepath fs0 in
  let out := fileOf env (outputPath env fHeaders url filepath) in
  run.1 = Done (Some (ErrWriteOutput (tempFileName i) cause))
  /\ exists artifact : nat -> list byte,
       (forall p, (1 <= p <= N)%nat ->
          partArtifact env R url (planRanges N totalSize) p
          = Some (artifact p))
       /\ fs run.2 !! out
          = Some (concat (map artifact (seq 1 (i - 1)))
                    ++ take written (artifact i))
       /\ (forall p, (1 <= p < i)%nat -> fs run.2 !! tempFile env p = None)
       /\ (forall p, (i <= p <= N)%nat ->
             fs run.2 !! tempFile env p = Some (artifact p)).
Proof.
  intros HR Hperm Hhead Hsize Hnone Hcreate Hfree Hi Hbefore Hfault run out.
  subst run.
  destruct (downloadFile_before_assembly env N R sched url filepath fs0
              fHeaders totalSize HR Hperm Hhead Hsize Hnone)
    as (st & artifact & H1 & H2 & H3 & ->).
  cbn zeta. rewrite Hcreate.
  set (path := outputPath env fHeaders url filepath) in *.
  assert (Hseq : seq 1 N = seq 1 (i - 1) ++ i :: seq (S i) (N - i)).
  { replace N with ((i - 1) + S (N - i))%nat at 1 by lia.
    rewrite seq_app. cbn [seq]. by replace (1 + (i - 1))%nat with i by lia. }
  assert (Hrange : forall p, p ∈ seq 1 (i - 1) ++ i :: seq (S i) (N - i) ->
            (1 <= p <= N)%nat).
  { intros p Hp. rewrite <- Hseq in Hp. apply elem_of_seq in Hp. lia. }
  assert (Hcreated : fs (createFile env path st) = <[out := []]> (fs st))
    by done.
  destruct (assemble_fault env path artifact (seq 1 (i - 1)) i
              (seq (S i) (N - i)) (createFile env path st) [] written cause)
    as (A1 & A2 & A3 & A4).
  { rewrite <- Hseq. apply NoDup_seq. }
  { intros p Hp. apply Hfree. by apply Hrange. }
  { intros j Hj. apply Hbefore. apply elem_of_seq in Hj. lia. }
  { done. }
  { rewrite Hcreated. apply lookup_insert_eq. }
  { intros p Hp. rewrite Hcreated.
    rewrite lookup_insert_ne by (apply Hfree; by apply Hrange).
    apply H2. by apply Hrange. }
  rewrite Hseq.
  destruct (assemble env path (seq 1 (i - 1) ++ i :: seq (S i) (N - i)) []
              (createFile env path st)) as [ex st'].
  cbn [fst snd] in *. subst ex. cbn [fst snd].
  split; [done|]. exists artifact. split; [done|]. split; [exact A2|].
  split.
  - intros p Hp. apply A3, elem_of_seq. lia.
  - intros p Hp. apply A4.
    destruct (decide (p = i)) as [->|Hne]; [apply elem_of_cons; by left|].
    apply elem_of_cons. right. apply elem_of_seq. lia.
Qed.

(** The five-byte example; the disk is full when the third part is
    copied, after one byte. *)
Lemma assembly_failure_witness :
  let env := outputDiskFull 3 1 fiveEnv in
  let run := downloadFile env NUM_PARTS MAX_RETRIES [3; 1; 4; 2]%nat
               exampleURL "out" ∅ in
  run.1 = Done (Some (ErrWriteOutput (tempFileName 3)
                        "no space left on device"))
  /\ exists artifact : nat -> list byte,
       (forall p, (1 <= p <= NUM_PARTS)%nat ->
          partArtifact env MAX_RETRIES exampleURL (planRanges NUM_PARTS 5) p
          = Some (artifact p))
       /\ fs run.2 !! fileOf env "out/f.bin"
          = Some (concat (map artifact (seq 1 (3 - 1)))
                    ++ take 1 (artifact 3%nat))
       /\ (forall p, (1 <= p < 3)%nat -> fs run.2 !! tempFile env p = None)
       /\ (forall p, (3 <= p <= NUM_PARTS)%nat ->
             fs run.2 !! tempFile env p = Some (artifact p)).
Proof.
  refine (assembly_failure_leaves_partial_output
            (outputDiskFull 3 1 fiveEnv)
            NUM_PARTS MAX_RETRIES [3; 1; 4; 2]%nat exampleURL "out" ∅
            {| ContentLegnth := "5"; ContentDisposition := "";
               ContentType := "" |} 5 3 1 "no space left on device"
            ltac:(unfold MAX_RETRIES; lia) example_schedule
            eq_refl eq_refl eq_refl eq_refl _ _ _ eq_refl).
  - intros p _. by apply output_elsewhere.
  - unfold NUM_PARTS; lia.
  - intros j Hj.
    assert (j = 0 \/ j = 1 \/ j = 2)%nat as [->|[->| ->]] by lia;
      reflexivity.
Defined.

(** ** [downloadFile]: the metadata requests *)

(** X23. The first HEAD request decides.  When it is answered with a
    status other than 200, or without [Content-Length], [downloadFile]
    returns the error of [getFileHeaders]: no range is requested and no
    file is touched. *)
Theorem head_refused_is_terminal env N R sched url filepath fs0 resp :
  NewRequest env "HEAD" url = None ->
  DoHead env 1 url = DoOk resp ->
  StatusCode resp <> StatusOK
  \/ Get (Header resp) "Content-Length" = "" ->
  let run := downloadFile env N R sched url filepath fs0 in
  run.1 = Done (Some (ErrFileHeaders
                        (if StatusCode resp =? StatusOK
                         then ErrMissingContentLength
                         else ErrNon200 (Status resp))))
  /\ trace run.2 = [] /\ fs run.2 = fs0.
Proof.
  intros Hreq Hdo Hbad run. subst run.
  unfold downloadFile, getFileHeaders. rewrite Hreq, Hdo.
  destruct (Z.eqb_spec (StatusCode resp) StatusOK) as [Hst|Hst];
    cbn [negb]; [|done].
  destruct Hbad as [Hbad|Hbad]; [done|]. by rewrite Hbad.
Qed.

Lemma head_refused_is_terminal_witness :
  let env := serverEnv ∅ (strictServer abcde) noParse in
  let run := downloadFile env NUM_PARTS MAX_RETRIES [1; 2; 3; 4]%nat
               exampleURL "out" ∅ in
  run.1 = Done (Some (ErrFileHeaders ErrMissingContentLength))
  /\ trace run.2 = [] /\ fs run.2 = ∅.
Proof.
  apply (head_refused_is_terminal (serverEnv ∅ (strictServer abcde) noParse)
           NUM_PARTS MAX_RETRIES [1; 2; 3; 4]%nat exampleURL "out" ∅
           {| StatusCode := StatusOK; Status := "200 OK"; Header := ∅;
              Body := [] |}).
  - reflexivity.
  - reflexivity.
  - right. reflexivity.
Defined.

(** ** [downloadFile]: the number of requests *)

Lemma writeOutput_trace env out content st :
  trace (writeOutput env out content st) = trace st.
Proof. unfold writeOutput. by destruct (fs st !! fileOf env out). Qed.

Lemma assemble_trace env out parts written st :
  trace (assemble env out parts written st).2 = trace st.
Proof.
  revert written st. induction parts as [|i parts' IH]; intros written st;
    [done|].
  cbn [assemble]. destruct (fs st !! fileOf env (tempFileName i)); [|done].
  destruct (bool_decide _ && negb _);
    destruct (AssembleCopyFault env i) as [[copied cause]|]; cbn [fst snd];
    rewrite ?IH; try apply writeOutput_trace; done.
Qed.

Lemma runParts_getCount env R url ranges sched st :
  (1 <= R)%nat ->
  (getCount (trace (runParts env R url ranges sched st).2)
   <= getCount (trace st) + length sched * R)%nat.
Proof.
  intros HR. revert st. induction sched as [|p sched' IH]; intros st;
    [cbn; lia|].
  cbn [runParts length].
  destruct (ranges !! (p - 1)%nat) as [[start end_]|];
    [|specialize (IH st); lia].
  destruct (1 <=? p)%nat; [|specialize (IH st); lia].
  destruct (downloadPart_trace_bounds env R url start end_ p st HR)
    as (tr & H1 & H2 & _).
  destruct (downloadPart env R url start end_ p st) as [[|] st1];
    cbn [fst snd] in *.
  - specialize (IH st1). rewrite H1, getCount_app in IH. lia.
  - rewrite H1, getCount_app. lia.
Qed.

(** X24. A run calls [http.DefaultClient.Do] for a GET at most [R]
    times for each goroutine that runs: at most [N * R] times for the
    [N] parts, twelve for the constants of the program, whatever the
    answers and whatever the disk does.  What the client sends on the
    wire for one call - it follows redirections - is not counted. *)
Theorem run_call_bound env N R sched url filepath fs0 :
  (1 <= R)%nat -> sched ≡ₚ seq 1 N ->
  (getCount (trace (downloadFile env N R sched url filepath fs0).2)
   <= N * R)%nat.
Proof.
  intros HR Hperm. unfold downloadFile.
  destruct (getFileHeaders env url) as [fHeaders|]; [|cbn; lia].
  destruct (getFileSize env url) as [totalSize|]; [|cbn; lia].
  set (st0 := {| fs := fs0; tempFiles := []; errChan := []; trace := [] |}).
  pose proof (runParts_getCount env R url (planRanges N totalSize) sched st0
                HR) as Hcount.
  assert (Hlen : length sched = N) by (by rewrite Hperm, length_seq).
  rewrite Hlen in Hcount. cbn [trace st0 getCount] in Hcount.
  destruct (runParts env R url (planRanges N totalSize) sched st0)
    as [[|] st]; cbn [fst snd] in *; [|done].
  destruct (errChan st); [|done].
  destruct (OsCreate env (outputPath env fHeaders url filepath)); [done|].
  pose proof (assemble_trace env (outputPath env fHeaders url filepath)
                (seq 1 N) []
                (createFile env (outputPath env fHeaders url filepath) st))
    as Htr.
  destruct (assemble env (outputPath env fHeaders url filepath) (seq 1 N) []
              (createFile env (outputPath env fHeaders url filepath) st))
    as [[|e|] st']; cbn [fst snd] in *; rewrite Htr; cbn;
    rewrite getCount_app; cbn; lia.
Qed.

Lemma run_call_bound_witness :
  (getCount (trace (downloadFile (failingParts [1%nat; 2%nat] fiveEnv)
                      NUM_PARTS MAX_RETRIES [3; 1; 4; 2]%nat exampleURL
                      "out" ∅).2)
   <= NUM_PARTS * MAX_RETRIES)%nat.
Proof.
  apply (run_call_bound (failingParts [1%nat; 2%nat] fiveEnv) NUM_PARTS
           MAX_RETRIES [3; 1; 4; 2]%nat exampleURL "out" ∅).
  - unfold MAX_RETRIES; lia.
  - apply example_schedule.
Defined.
